(** * Kind-tagged quantities: a shallow embedding of [units/quantity_kind.h]

    The header is generic code: every entity is a template over a kind [K],
    a unit [U] and a representation [Rep], and every operator is gated by a
    [requires]-clause.  The embedding keeps the two levels of the source
    apart:

    - type descriptors ([QT] for [quantity<D, U, Rep>], [QK] for
      [quantity_kind<K, U, Rep>]) stand for the template arguments;
    - values carry their descriptor, and every operation returns an
      [option]: [None] is an expression that does not type-check (a failed
      constraint, no viable overload), [Some r] is the value the accepted
      expression evaluates to.

    The quantity layer and the kind hierarchy are collaborators declared in
    other headers ([units/quantity.h], [units/kind.h]); they are taken as
    interfaces (type classes) and instantiated further down on a small
    concrete system of lengths. *)

From stdpp Require Import base decidable option numbers list.
From Stdlib Require Import ZArith QArith List.

Set Default Proof Using "Type".

(** ** Collaborator interfaces *)

(** Dimensions and units: the descriptors [D] and [U] of [quantity<D, U, Rep>],
    the concept [UnitOf<D>] and the dimension arithmetic of the quantity
    layer. *)
Class Dimensions := {
  Dim : Type;
  Dim_eq_dec :: EqDecision Dim;
  dim_one : Dim;
  dim_invert : Dim → Dim;
  dimension_multiply : Dim → Dim → Dim;
  dimension_divide : Dim → Dim → Dim;
  Unit : Type;
  Unit_eq_dec :: EqDecision Unit;
  UnitOf : Dim → Unit → bool;
}.

(** The kind hierarchy of [units/kind.h].  [downcast_kind K D] is the alias
    template [downcast_kind<K, D>]: [Some K'] when it names the kind [K'].
    The header does not say for which arguments the alias names a kind; a
    hierarchy in which it does so for every kind and dimension is described
    by [downcast_typed] below. *)
Class Kinds `{Dimensions} := {
  Kind : Type;
  Kind_eq_dec :: EqDecision Kind;
  base_kind : Kind → Kind;
  kind_dimension : Kind → Dim;
  downcast_kind : Kind → Dim → option Kind;
}.

(** Representations: the descriptor [Rep], the bare numeric values
    ([QuantityValue]) with the type they have, the stored numbers, and the
    concept [safe_convertible_to_]. *)
Class Representations := {
  Rep : Type;
  Rep_eq_dec :: EqDecision Rep;
  Value : Type;
  value_type : Value → Rep;
  Num : Type;
  safe_convertible_to_ : Rep → Rep → bool;
}.

Section quantity.
Context `{Dimensions, Representations}.

(** [quantity<D, U, Rep>]: the three descriptors and the stored number. *)
Record quantity := Quantity {
  Q_dimension : Dim;
  Q_unit : Unit;
  Q_rep : Rep;
  number : Num;
}.

(** The type of a quantity, as a descriptor. *)
Record QT := mkQT { QT_dimension : Dim; QT_unit : Unit; QT_rep : Rep }.

#[global] Instance QT_eq_dec : EqDecision QT.
Proof. solve_decision. Defined.

Definition type_of (q : quantity) : QT :=
  mkQT (Q_dimension q) (Q_unit q) (Q_rep q).

(** The constraint of the class template [quantity]: its unit is a unit of
    its dimension ([UnitOf<D> U]). *)
Definition quantity_formed (q : quantity) : bool :=
  UnitOf (Q_dimension q) (Q_unit q).
End quantity.

Arguments quantity {_ _}.
Arguments QT {_ _}.

(** The operations of [quantity] that the header uses in its bodies and in its
    [requires]-clauses.  An operation answers [None] when the quantity type
    lacks the operator for these operand types.  In-place operators answer
    the new state of the receiver; the postfix ones answer the returned value
    and the new state. *)
Class QuantityOps `{Dimensions, Representations} := {
  (* std::is_constructible_v<quantity_type, Value>, and the construction *)
  quantity_from_value : QT → Value → option quantity;
  (* std::is_constructible_v<quantity_type, Q> for another quantity type *)
  quantity_from_quantity : QT → quantity → option quantity;
  (* std::is_convertible_v<Q2, quantity_type> *)
  quantity_convertible : QT → QT → bool;
  (* static factories *)
  quantity_zero : QT → option quantity;
  quantity_one : QT → option quantity;
  (* ++q, q++, --q, q-- *)
  quantity_pre_inc : quantity → option quantity;
  quantity_post_inc : quantity → option (quantity * quantity);
  quantity_pre_dec : quantity → option quantity;
  quantity_post_dec : quantity → option (quantity * quantity);
  (* q %= r, q %= q2 *)
  quantity_mod_assign_value : quantity → Value → option quantity;
  quantity_mod_assign : quantity → quantity → option quantity;
  (* q * v, v * q, q / v, v / q *)
  quantity_mul_value : quantity → Value → option quantity;
  value_mul_quantity : Value → quantity → option quantity;
  quantity_div_value : quantity → Value → option quantity;
  value_div_quantity : Value → quantity → option quantity;
  (* q1 + q2, q1 - q2, q1 * q2, q1 / q2, q1 % q2, q1 == q2 *)
  quantity_add : quantity → quantity → option quantity;
  quantity_sub : quantity → quantity → option quantity;
  quantity_mul : quantity → quantity → option quantity;
  quantity_div : quantity → quantity → option quantity;
  quantity_mod : quantity → quantity → option quantity;
  quantity_eq : quantity → quantity → option bool;
}.

(** ** The header *)

Section quantity_kind.
Context `{HK : Kinds, HR : Representations, !QuantityOps}.

(** [quantity_kind<K, U, Rep>] as a descriptor. *)
Record QK := mkQK { QK_kind_type : Kind; QK_unit : Unit; QK_rep : Rep }.

#[global] Instance QK_eq_dec : EqDecision QK.
Proof. solve_decision. Defined.

(** [using quantity_type = quantity<typename K::dimension, U, Rep>] *)
Definition quantity_type (T : QK) : QT :=
  mkQT (kind_dimension (QK_kind_type T)) (QK_unit T) (QK_rep T).

(** [using dimension = typename quantity_type::dimension] *)
Definition dimension (T : QK) : Dim := QT_dimension (quantity_type T).

(** The constraints of the class template:
    [template<Kind K, UnitOf<typename K::dimension> U, QuantityValue Rep>]. *)
Definition QK_formed (T : QK) : bool :=
  UnitOf (kind_dimension (QK_kind_type T)) (QK_unit T).

(** A value of the class: the kind tag and the single data member [q_].
    The unit and the representation of the class are those of [q_]. *)
Record quantity_kind := QuantityKind {
  kind_type : Kind;
  q_ : quantity;
}.

Definition qk_type_of (qk : quantity_kind) : QK :=
  mkQK (kind_type qk) (Q_unit (q_ qk)) (Q_rep (q_ qk)).

(** The invariant that the type of a value gives: [q_] has type
    [quantity_type], and the class is well formed. *)
Definition well_typed (qk : quantity_kind) : Prop :=
  Q_dimension (q_ qk) = kind_dimension (kind_type qk) ∧
  UnitOf (kind_dimension (kind_type qk)) (Q_unit (q_ qk)) = true.

(** Initialising a member of type [T] from [q]: the defaulted copy
    constructor when [q] has that very type, a converting constructor of
    the quantity layer otherwise. *)
Definition construct_quantity (T : QT) (q : quantity) : option quantity :=
  if decide (type_of q = T) then Some q else quantity_from_quantity T q.

(** [constexpr explicit quantity_kind(const Value& v) : q_(v) {}] with
    [safe_convertible_to_<rep> Value] and
    [requires is_same_v<dimension, dim_one> &&
              std::is_constructible_v<quantity_type, Value>]. *)
Definition quantity_kind_from_value (T : QK) (v : Value)
  : option quantity_kind :=
  guard (QK_formed T);;
  guard (safe_convertible_to_ (value_type v) (QK_rep T));;
  guard (dimension T = dim_one);;
  q ← quantity_from_value (quantity_type T) v;
  Some (QuantityKind (QK_kind_type T) q).

(** [constexpr explicit quantity_kind(const Q& q) : q_{q} {}] with
    [requires (Quantity<Q> || QuantityLike<Q>) &&
              std::is_constructible_v<quantity_type, Q>]. *)
Definition quantity_kind_from_quantity (T : QK) (q : quantity)
  : option quantity_kind :=
  guard (QK_formed T);;
  q' ← construct_quantity (quantity_type T) q;
  Some (QuantityKind (QK_kind_type T) q').

(** [constexpr quantity_type common() const noexcept { return q_; }] *)
Definition common (qk : quantity_kind) : quantity := q_ qk.

(** [detail::make_quantity_kind_fn<K>]:
    [return quantity_kind<K, typename Q::unit, typename Q::rep>(std::move(q));] *)
Definition make_quantity_kind_fn (K : Kind) (q : quantity)
  : option quantity_kind :=
  quantity_kind_from_quantity (mkQK K (Q_unit q) (Q_rep q)) q.

(** [detail::make_quantity_kind<QK> =
     make_quantity_kind_fn<typename QK::kind_type>] *)
Definition make_quantity_kind (T : QK) : quantity → option quantity_kind :=
  make_quantity_kind_fn (QK_kind_type T).

(** [detail::downcasted_kind_fn<K>]:
    [return make_quantity_kind_fn<downcast_kind<K, typename Q::dimension>>(std::move(q));]
    The template argument of [make_quantity_kind_fn] is the kind that the
    alias names. *)
Definition downcasted_kind_fn (K : Kind) (q : quantity)
  : option quantity_kind :=
  K' ← downcast_kind K (Q_dimension q);
  make_quantity_kind_fn K' q.

(** [detail::downcasted_kind<QK> =
     downcasted_kind_fn<typename QK::kind_type::base_kind>] *)
Definition downcasted_kind (T : QK) : quantity → option quantity_kind :=
  downcasted_kind_fn (base_kind (QK_kind_type T)).

(** [std::is_convertible_v<From, To>] on quantity types: a type converts
    to itself through its defaulted copy constructor. *)
Definition is_convertible (From To : QT) : bool :=
  bool_decide (From = To) || quantity_convertible From To.

(** Modelled from the spec: the concept [QuantityKindEquivalentTo], which
    is declared outside this header.  Two kind-quantity types are
    equivalent iff their kinds share the same base kind and their
    underlying quantities are mutually convertible. *)
Definition QuantityKindEquivalentTo (T1 T2 : QK) : bool :=
  bool_decide (base_kind (QK_kind_type T1) = base_kind (QK_kind_type T2))
  && is_convertible (quantity_type T1) (quantity_type T2)
  && is_convertible (quantity_type T2) (quantity_type T1).

(** [constexpr explicit(false) quantity_kind(const QK2& qk) : q_{qk.common()} {}]
    with [QuantityKindEquivalentTo<quantity_kind> QK2] and
    [requires std::is_convertible_v<typename QK2::quantity_type, quantity_type>]. *)
Definition quantity_kind_from_equivalent (T : QK) (qk : quantity_kind)
  : option quantity_kind :=
  guard (QK_formed T);;
  guard (QuantityKindEquivalentTo (qk_type_of qk) T);;
  guard (is_convertible (quantity_type (qk_type_of qk)) (quantity_type T));;
  q' ← construct_quantity (quantity_type T) (common qk);
  Some (QuantityKind (QK_kind_type T) q').

(** [static constexpr quantity_kind zero() noexcept]
    [requires requires { quantity_type::zero(); }]:
    [return quantity_kind(quantity_type::zero());] *)
Definition zero (T : QK) : option quantity_kind :=
  z ← quantity_zero (quantity_type T);
  quantity_kind_from_quantity T z.

(** [static constexpr quantity_kind one() noexcept]
    [requires requires { quantity_type::one(); }]:
    [return quantity_kind(quantity_type::one());] *)
Definition one (T : QK) : option quantity_kind :=
  o ← quantity_one (quantity_type T);
  quantity_kind_from_quantity T o.

(** *** In-place operators

    A member operator that mutates the receiver answers what it returns
    together with the state in which it leaves the receiver.  What it
    returns is either the receiver itself ([quantity_kind&], [*this]) or a
    fresh object. *)
Inductive returned :=
| reference_to_this
| prvalue (qk : quantity_kind).

Record effect := Effect {
  result : returned;
  receiver : quantity_kind;
}.

(** The object that the returned expression designates once the call is
    over. *)
Definition designated (e : effect) : quantity_kind :=
  match result e with
  | reference_to_this => receiver e
  | prvalue qk => qk
  end.

(** The receiver with [q_] replaced: the class has no other member. *)
Definition with_q_ (self : quantity_kind) (q : quantity) : quantity_kind :=
  QuantityKind (kind_type self) q.

(** [constexpr quantity_kind& operator++()]: [++q_; return *this;] *)
Definition op_pre_inc (self : quantity_kind) : option effect :=
  q ← quantity_pre_inc (q_ self);
  Some (Effect reference_to_this (with_q_ self q)).

(** [constexpr quantity_kind operator++(int)]: [return quantity_kind(q_++);] *)
Definition op_post_inc (self : quantity_kind) : option effect :=
  '(old, q) ← quantity_post_inc (q_ self);
  r ← quantity_kind_from_quantity (qk_type_of self) old;
  Some (Effect (prvalue r) (with_q_ self q)).

(** [constexpr quantity_kind& operator--()]: [--q_; return *this;] *)
Definition op_pre_dec (self : quantity_kind) : option effect :=
  q ← quantity_pre_dec (q_ self);
  Some (Effect reference_to_this (with_q_ self q)).

(** [constexpr quantity_kind operator--(int)]: [return quantity_kind(q_--);] *)
Definition op_post_dec (self : quantity_kind) : option effect :=
  '(old, q) ← quantity_post_dec (q_ self);
  r ← quantity_kind_from_quantity (qk_type_of self) old;
  Some (Effect (prvalue r) (with_q_ self q)).

(** The right-hand side of a compound assignment, by the concept it
    satisfies. *)
Inductive operand :=
| bare_value (v : Value)
| plain_quantity (p : quantity)
| kind_quantity (qk : quantity_kind).

(** The concept [Quantity]. *)
Definition is_Quantity (rhs : operand) : bool :=
  match rhs with plain_quantity _ => true | _ => false end.

(** [q %= r] on the wrapped quantity, for an operand of any type.  The
    quantity layer is declared before this header and has no operator that
    takes a [quantity_kind]. *)
Definition quantity_mod_assign_operand (q : quantity) (rhs : operand)
  : option quantity :=
  match rhs with
  | bare_value v => quantity_mod_assign_value q v
  | plain_quantity p => quantity_mod_assign q p
  | kind_quantity _ => None
  end.

(** [template<typename Rep2> constexpr quantity_kind& operator%=(const Rep2& rhs)]
    [requires (!Quantity<Rep2>) && requires(quantity_type q, const Rep2 r) { q %= r; }]:
    [q_ %= rhs; return *this;] *)
Definition op_mod_assign_Rep2 (self : quantity_kind) (rhs : operand)
  : option effect :=
  guard (is_Quantity rhs = false);;
  q ← quantity_mod_assign_operand (q_ self) rhs;
  Some (Effect reference_to_this (with_q_ self q)).

(** [constexpr quantity_kind& operator%=(const quantity_kind& qk)]
    [requires requires(quantity_type q) { q %= qk.common(); }]:
    [q_ %= qk.common(); return *this;] *)
Definition op_mod_assign_quantity_kind (self qk : quantity_kind)
  : option effect :=
  q ← quantity_mod_assign (q_ self) (common qk);
  Some (Effect reference_to_this (with_q_ self q)).

(** Binding an argument to a parameter of type [const quantity_kind&],
    [T] being the class: directly for an object of the class, through the
    non-explicit constructor for an equivalent kind-quantity.  The
    constructors from a bare value and from a quantity are [explicit] and
    take no part in implicit conversions. *)
Definition bind_to_quantity_kind (T : QK) (rhs : operand)
  : option quantity_kind :=
  match rhs with
  | kind_quantity qk =>
      if decide (qk_type_of qk = T) then Some qk
      else quantity_kind_from_equivalent T qk
  | bare_value _ | plain_quantity _ => None
  end.

Definition same_class (self : quantity_kind) (rhs : operand) : bool :=
  match rhs with
  | kind_quantity qk => bool_decide (qk_type_of qk = qk_type_of self)
  | _ => false
  end.

(** The expression [self %= rhs]: overload resolution between the two
    members.  The template binds its parameter exactly; the non-template
    wins when it binds exactly too, and is the fallback through the
    implicit conversion otherwise. *)
Definition op_mod_assign (self : quantity_kind) (rhs : operand)
  : option effect :=
  let non_template :=
    qk ← bind_to_quantity_kind (qk_type_of self) rhs;
    op_mod_assign_quantity_kind self qk in
  if same_class self rhs
  then non_template ∪ op_mod_assign_Rep2 self rhs
  else op_mod_assign_Rep2 self rhs ∪ non_template.

(** *** Hidden friends *)

(** [operator*(const quantity_kind& qk, const Value& v)]
    [requires requires { { qk.common() * v } -> Quantity; }]:
    [return detail::make_quantity_kind<quantity_kind>(qk.common() * v);] *)
Definition op_mul_value (qk : quantity_kind) (v : Value)
  : option quantity_kind :=
  q ← quantity_mul_value (common qk) v;
  make_quantity_kind (qk_type_of qk) q.

(** [operator*(const Value& v, const quantity_kind& qk)]
    [requires requires { { v * qk.common() } -> Quantity; }]:
    [return detail::make_quantity_kind<quantity_kind>(v * qk.common());] *)
Definition op_value_mul (v : Value) (qk : quantity_kind)
  : option quantity_kind :=
  q ← value_mul_quantity v (common qk);
  make_quantity_kind (qk_type_of qk) q.

(** [operator/(const quantity_kind& qk, const Value& v)]
    [requires requires { { qk.common() / v } -> Quantity; }]:
    [return detail::make_quantity_kind<quantity_kind>(qk.common() / v);] *)
Definition op_div_value (qk : quantity_kind) (v : Value)
  : option quantity_kind :=
  q ← quantity_div_value (common qk) v;
  make_quantity_kind (qk_type_of qk) q.

(** [operator/(const Value& v, const quantity_kind& qk)]
    [requires requires { { v / qk.common() } -> Quantity; }]:
    [return detail::downcasted_kind<quantity_kind>(v / qk.common());] *)
Definition op_value_div (v : Value) (qk : quantity_kind)
  : option quantity_kind :=
  q ← value_div_quantity v (common qk);
  downcasted_kind (qk_type_of qk) q.

(** [friend constexpr bool operator==(const quantity_kind&, const quantity_kind&) = default;]
    compares the only member. *)
Definition op_eq_default (lhs rhs : quantity_kind) : option bool :=
  quantity_eq (q_ lhs) (q_ rhs).

(** *** Free operators *)

(** [template<QuantityKind QK1, QuantityKindEquivalentTo<QK1> QK2>]
    [operator+(const QK1& lhs, const QK2& rhs)]
    [requires requires { lhs.common() + rhs.common(); }]:
    [return detail::make_quantity_kind<QK1>(lhs.common() + rhs.common());] *)
Definition op_add (lhs rhs : quantity_kind) : option quantity_kind :=
  guard (QuantityKindEquivalentTo (qk_type_of rhs) (qk_type_of lhs));;
  q ← quantity_add (common lhs) (common rhs);
  make_quantity_kind (qk_type_of lhs) q.

(** [operator-(const QK1& lhs, const QK2& rhs)], same constraints:
    [return detail::make_quantity_kind<QK1>(lhs.common() - rhs.common());] *)
Definition op_sub (lhs rhs : quantity_kind) : option quantity_kind :=
  guard (QuantityKindEquivalentTo (qk_type_of rhs) (qk_type_of lhs));;
  q ← quantity_sub (common lhs) (common rhs);
  make_quantity_kind (qk_type_of lhs) q.

(** [template<QuantityKind QK, Quantity Q> operator*(const QK& lhs, const Q& rhs)]
    [requires requires { lhs.common() * rhs; }]:
    [return detail::downcasted_kind<QK>(lhs.common() * rhs);] *)
Definition op_mul_quantity (lhs : quantity_kind) (rhs : quantity)
  : option quantity_kind :=
  q ← quantity_mul (common lhs) rhs;
  downcasted_kind (qk_type_of lhs) q.

(** [template<Quantity Q, QuantityKind QK> operator*(const Q& lhs, const QK& rhs)]
    [requires requires { lhs * rhs.common(); }]:
    [return detail::downcasted_kind<QK>(lhs * rhs.common());] *)
Definition op_quantity_mul (lhs : quantity) (rhs : quantity_kind)
  : option quantity_kind :=
  q ← quantity_mul lhs (common rhs);
  downcasted_kind (qk_type_of rhs) q.

(** [template<QuantityKind QK, Quantity Q> operator/(const QK& lhs, const Q& rhs)]
    [requires requires { lhs.common() / rhs; }]:
    [return detail::downcasted_kind<QK>(lhs.common() / rhs);] *)
Definition op_div_quantity (lhs : quantity_kind) (rhs : quantity)
  : option quantity_kind :=
  q ← quantity_div (common lhs) rhs;
  downcasted_kind (qk_type_of lhs) q.

(** [template<Quantity Q, QuantityKind QK> operator/(const Q& lhs, const QK& rhs)]
    [requires requires { lhs / rhs.common(); }]:
    [return detail::downcasted_kind<QK>(lhs / rhs.common());] *)
Definition op_quantity_div (lhs : quantity) (rhs : quantity_kind)
  : option quantity_kind :=
  q ← quantity_div lhs (common rhs);
  downcasted_kind (qk_type_of rhs) q.

(** [template<QuantityKind QK1, QuantityKindEquivalentTo<QK1> QK2>]
    [operator%(const QK1& lhs, const QK2& rhs)]
    [requires requires { lhs.common() % rhs.common(); }]:
    [return detail::make_quantity_kind<QK1>(lhs.common() % rhs.common());] *)
Definition op_mod (lhs rhs : quantity_kind) : option quantity_kind :=
  guard (QuantityKindEquivalentTo (qk_type_of rhs) (qk_type_of lhs));;
  q ← quantity_mod (common lhs) (common rhs);
  make_quantity_kind (qk_type_of lhs) q.

(** [template<QuantityKind QK1, QuantityKindEquivalentTo<QK1> QK2>]
    [requires std::equality_comparable_with<typename QK1::quantity_type,
                                            typename QK2::quantity_type>]
    [operator==(const QK1& lhs, const QK2& rhs)]:
    [return lhs.common() == rhs.common();] *)
Definition op_eq_equivalent (lhs rhs : quantity_kind) : option bool :=
  guard (QuantityKindEquivalentTo (qk_type_of rhs) (qk_type_of lhs));;
  quantity_eq (common lhs) (common rhs).

(** The expression [lhs == rhs].  For two objects of one class the defaulted
    friend, a non-template, wins over the template.  For a mixed pair the
    template binds both operands exactly and comes first; the friend of
    either class is viable only through the implicit conversion of the other
    operand, and two such candidates are ambiguous. *)
Definition op_eq (lhs rhs : quantity_kind) : option bool :=
  if decide (qk_type_of lhs = qk_type_of rhs)
  then op_eq_default lhs rhs ∪ op_eq_equivalent lhs rhs
  else
    let friend_of_lhs :=
      rhs' ← bind_to_quantity_kind (qk_type_of lhs) (kind_quantity rhs);
      op_eq_default lhs rhs' in
    let friend_of_rhs :=
      lhs' ← bind_to_quantity_kind (qk_type_of rhs) (kind_quantity lhs);
      op_eq_default lhs' rhs in
    op_eq_equivalent lhs rhs
    ∪ match friend_of_lhs, friend_of_rhs with
      | Some b, None | None, Some b => Some b
      | _, _ => None
      end.

(** The alias [downcast_kind<K, D>] names a kind for every kind and
    dimension, and the kind it names is over [D]: a typing fact of the
    hierarchy, to serve as an assumption where a property needs it. *)
Definition downcast_typed : Prop :=
  ∀ K D, ∃ K', downcast_kind K D = Some K' ∧ kind_dimension K' = D.

(** *** The specification's reading of [scalar / kind-quantity]

    The specification lets [s / q] degrade to a plain quantity when the
    hierarchy declares no specific kind for the inverted dimension.  This
    second definition follows its words, to be compared with
    [op_value_div]; [specific] tells the kinds that the hierarchy declares
    from the ones that the alias names without a declaration. *)
Inductive quotient :=
| kinded (qk : quantity_kind)
| unkinded (r : quantity).

Definition spec_value_div (specific : Kind → bool) (v : Value)
    (qk : quantity_kind) : option quotient :=
  q ← value_div_quantity v (common qk);
  match downcast_kind (base_kind (kind_type qk))
                      (dim_invert (dimension (qk_type_of qk))) with
  | Some K' =>
      if specific K' then Some (kinded (QuantityKind K' q))
      else Some (unkinded q)
  | None => Some (unkinded q)
  end.

End quantity_kind.

(** ** The rest of the header

    The members and operators below need further operations of [quantity]:
    they are a second interface, beside [QuantityOps].  [Ordering] is the
    comparison category that [<=>] answers on quantities, [Dimensionless]
    the concept of that name. *)
Class QuantityMoreOps `{Dimensions, Representations} := {
  Ordering : Type;
  Dimensionless : quantity → bool;
  (* static factories *)
  quantity_min : QT → option quantity;
  quantity_max : QT → option quantity;
  (* +q, -q *)
  quantity_pos : quantity → option quantity;
  quantity_neg : quantity → option quantity;
  (* q += q2, q -= q2 *)
  quantity_add_assign : quantity → quantity → option quantity;
  quantity_sub_assign : quantity → quantity → option quantity;
  (* q *= r, q /= r for a bare value and for a quantity *)
  quantity_mul_assign_value : quantity → Value → option quantity;
  quantity_mul_assign_quantity : quantity → quantity → option quantity;
  quantity_div_assign_value : quantity → Value → option quantity;
  quantity_div_assign_quantity : quantity → quantity → option quantity;
  (* q % v *)
  quantity_mod_value : quantity → Value → option quantity;
  (* q1 <=> q2 *)
  quantity_cmp : quantity → quantity → option Ordering;
}.

Section quantity_kind_rest.
Context `{HK : Kinds, HR : Representations, !QuantityOps, !QuantityMoreOps}.

(** [static constexpr quantity_kind min() noexcept]
    [requires requires { quantity_type::min(); }]:
    [return quantity_kind(quantity_type::min());] *)
Definition min (T : QK) : option quantity_kind :=
  m ← quantity_min (quantity_type T);
  quantity_kind_from_quantity T m.

(** [static constexpr quantity_kind max() noexcept]
    [requires requires { quantity_type::max(); }]:
    [return quantity_kind(quantity_type::max());] *)
Definition max (T : QK) : option quantity_kind :=
  m ← quantity_max (quantity_type T);
  quantity_kind_from_quantity T m.

(** [constexpr quantity_kind operator+() const]
    [requires requires(quantity_type q) { +q; }]: [return *this;] *)
Definition op_pos (self : quantity_kind) : option quantity_kind :=
  _ ← quantity_pos (q_ self);
  Some self.

(** [constexpr QuantityKind auto operator-() const]
    [requires requires(quantity_type q) { -q; }]:
    [return detail::make_quantity_kind<quantity_kind>(-q_);] *)
Definition op_neg (self : quantity_kind) : option quantity_kind :=
  q ← quantity_neg (q_ self);
  make_quantity_kind (qk_type_of self) q.

(** [constexpr quantity_kind& operator+=(const quantity_kind& qk)]
    [requires requires(quantity_type q) { q += qk.common(); }]:
    [q_ += qk.common(); return *this;]
    It is the only [operator+=] of the class: the argument has to bind to
    [const quantity_kind&]. *)
Definition op_add_assign (self : quantity_kind) (rhs : operand)
  : option effect :=
  qk ← bind_to_quantity_kind (qk_type_of self) rhs;
  q ← quantity_add_assign (q_ self) (common qk);
  Some (Effect reference_to_this (with_q_ self q)).

(** [constexpr quantity_kind& operator-=(const quantity_kind& qk)]
    [requires requires(quantity_type q) { q -= qk.common(); }]:
    [q_ -= qk.common(); return *this;] *)
Definition op_sub_assign (self : quantity_kind) (rhs : operand)
  : option effect :=
  qk ← bind_to_quantity_kind (qk_type_of self) rhs;
  q ← quantity_sub_assign (q_ self) (common qk);
  Some (Effect reference_to_this (with_q_ self q)).

(** [q *= r] and [q /= r] on the wrapped quantity, for an operand of any
    type; as for [%=], the quantity layer has no operator that takes a
    [quantity_kind]. *)
Definition quantity_mul_assign_operand (q : quantity) (rhs : operand)
  : option quantity :=
  match rhs with
  | bare_value v => quantity_mul_assign_value q v
  | plain_quantity p => quantity_mul_assign_quantity q p
  | kind_quantity _ => None
  end.

Definition quantity_div_assign_operand (q : quantity) (rhs : operand)
  : option quantity :=
  match rhs with
  | bare_value v => quantity_div_assign_value q v
  | plain_quantity p => quantity_div_assign_quantity q p
  | kind_quantity _ => None
  end.

(** [template<typename Rep2> constexpr quantity_kind& operator*=(const Rep2& rhs)]
    [requires requires(quantity_type q) { q *= rhs; }]:
    [q_ *= rhs; return *this;] *)
Definition op_mul_assign (self : quantity_kind) (rhs : operand)
  : option effect :=
  q ← quantity_mul_assign_operand (q_ self) rhs;
  Some (Effect reference_to_this (with_q_ self q)).

(** [template<typename Rep2> constexpr quantity_kind& operator/=(const Rep2& rhs)]
    [requires requires(quantity_type q) { q /= rhs; }]:
    [q_ /= rhs; return *this;] *)
Definition op_div_assign (self : quantity_kind) (rhs : operand)
  : option effect :=
  q ← quantity_div_assign_operand (q_ self) rhs;
  Some (Effect reference_to_this (with_q_ self q)).

(** [operator%(const quantity_kind& qk, const Value& v)]
    [requires requires { qk.common() % v; }]:
    [return detail::make_quantity_kind<quantity_kind>(qk.common() % v);] *)
Definition op_mod_value (qk : quantity_kind) (v : Value)
  : option quantity_kind :=
  q ← quantity_mod_value (common qk) v;
  make_quantity_kind (qk_type_of qk) q.

(** [template<QuantityKind QK, Dimensionless D> operator%(const QK& lhs, const D& rhs)]
    [requires requires { lhs.common() % rhs; }]:
    [return detail::make_quantity_kind<QK>(lhs.common() % rhs);] *)
Definition op_mod_dimensionless (lhs : quantity_kind) (rhs : quantity)
  : option quantity_kind :=
  guard (Dimensionless rhs);;
  q ← quantity_mod (common lhs) rhs;
  make_quantity_kind (qk_type_of lhs) q.

(** [friend constexpr auto operator<=>(const quantity_kind& lhs, const quantity_kind& rhs)]
    [requires std::three_way_comparable<quantity_type>]:
    [return lhs.common() <=> rhs.common();] *)
Definition op_cmp_friend (lhs rhs : quantity_kind) : option Ordering :=
  quantity_cmp (common lhs) (common rhs).

(** [template<QuantityKind QK1, QuantityKindEquivalentTo<QK1> QK2>]
    [requires std::three_way_comparable_with<typename QK1::quantity_type,
                                             typename QK2::quantity_type>]
    [operator<=>(const QK1& lhs, const QK2& rhs)]:
    [return lhs.common() <=> rhs.common();] *)
Definition op_cmp_equivalent (lhs rhs : quantity_kind) : option Ordering :=
  guard (QuantityKindEquivalentTo (qk_type_of rhs) (qk_type_of lhs));;
  quantity_cmp (common lhs) (common rhs).

(** The expression [lhs <=> rhs]: the friend and the template stand to each
    other as the two [operator==] do. *)
Definition op_cmp (lhs rhs : quantity_kind) : option Ordering :=
  if decide (qk_type_of lhs = qk_type_of rhs)
  then op_cmp_friend lhs rhs ∪ op_cmp_equivalent lhs rhs
  else
    let friend_of_lhs :=
      rhs' ← bind_to_quantity_kind (qk_type_of lhs) (kind_quantity rhs);
      op_cmp_friend lhs rhs' in
    let friend_of_rhs :=
      lhs' ← bind_to_quantity_kind (qk_type_of rhs) (kind_quantity lhs);
      op_cmp_friend lhs' rhs in
    op_cmp_equivalent lhs rhs
    ∪ match friend_of_lhs, friend_of_rhs with
      | Some b, None | None, Some b => Some b
      | _, _ => None
      end.

(** *** Typing facts of the collaborators

    The embedding lets a value carry its type; what the type system of the
    source gives for free is stated here, to serve as an assumption where a
    property needs it. *)

(** A constructor of [quantity<D, U, Rep>] makes an object of that type. *)
Definition constructors_typed : Prop :=
  (∀ T v q, quantity_from_value T v = Some q → type_of q = T) ∧
  (∀ T q q', quantity_from_quantity T q = Some q' → type_of q' = T).

(** An in-place operator of [quantity] leaves the type of its receiver
    alone. *)
Definition in_place_typed : Prop :=
  (∀ q q', quantity_pre_inc q = Some q' → type_of q' = type_of q) ∧
  (∀ q old q', quantity_post_inc q = Some (old, q') → type_of q' = type_of q) ∧
  (∀ q q', quantity_pre_dec q = Some q' → type_of q' = type_of q) ∧
  (∀ q old q', quantity_post_dec q = Some (old, q') → type_of q' = type_of q) ∧
  (∀ q q2 q', quantity_add_assign q q2 = Some q' → type_of q' = type_of q) ∧
  (∀ q q2 q', quantity_sub_assign q q2 = Some q' → type_of q' = type_of q) ∧
  (∀ q o q', quantity_mul_assign_operand q o = Some q' → type_of q' = type_of q) ∧
  (∀ q o q', quantity_div_assign_operand q o = Some q' → type_of q' = type_of q) ∧
  (∀ q o q', quantity_mod_assign_operand q o = Some q' → type_of q' = type_of q) ∧
  (∀ q q2 q', quantity_mod_assign q q2 = Some q' → type_of q' = type_of q).

(** The kind hierarchy: a base kind is its own base kind, and a downcast
    stays in the family. *)
Definition hierarchy_closed : Prop :=
  (∀ K, base_kind (base_kind K) = base_kind K) ∧
  (∀ K D K', downcast_kind K D = Some K' → base_kind K' = base_kind K).

(** The expressions over a kind-quantity [q], a bare value [v], a plain
    quantity [p] and a second kind-quantity [rhs] that return a kind-quantity
    by value. *)
Definition value_returning (q : quantity_kind) (v : Value) (p : quantity)
    (rhs : quantity_kind) : list (option quantity_kind) :=
  [ op_pos q; op_neg q;
    op_mul_value q v; op_value_mul v q; op_div_value q v; op_value_div v q;
    op_mod_value q v;
    op_add q rhs; op_sub q rhs; op_mod q rhs;
    op_mul_quantity q p; op_quantity_mul p q;
    op_div_quantity q p; op_quantity_div p q;
    op_mod_dimensionless q p ].

(** The in-place expressions over a kind-quantity [q] and an operand [o]. *)
Definition in_place (q : quantity_kind) (o : operand) : list (option effect) :=
  [ op_pre_inc q; op_post_inc q; op_pre_dec q; op_post_dec q;
    op_add_assign q o; op_sub_assign q o;
    op_mul_assign q o; op_div_assign q o; op_mod_assign q o ].

End quantity_kind_rest.

(** ** A concrete system: powers of length

    An instance of the three interfaces, small enough to evaluate the header
    on.  Dimensions are the integer powers of length; each has one coherent
    unit (a power of the metre); there are two representation types, an
    integral one and an exact rational one that is treated as a floating-point
    type. *)
Module Metric.

Local Open Scope Z_scope.

Record coherent_unit := metre_to { unit_power : Z }.

#[export] Instance coherent_unit_eq_dec : EqDecision coherent_unit.
Proof. solve_decision. Defined.

#[export] Instance dimensions : Dimensions := {|
  Dim := Z;
  dim_one := 0;
  dim_invert := Z.opp;
  dimension_multiply := Z.add;
  dimension_divide := Z.sub;
  Unit := coherent_unit;
  UnitOf D U := bool_decide (unit_power U = D);
|}.

Definition dim_length : Dim := 1.
Definition dim_area : Dim := 2.
Definition metre : Unit := metre_to 1.
Definition square_metre : Unit := metre_to 2.
Definition per_metre : Unit := metre_to (-1).
Definition unit_one : Unit := metre_to 0.

(** The kinds: three families.  [radius] and [curvature] form one,
    [width] and [horizontal_area] another, [apples] is dimensionless.
    Beside the declared kinds each family has, for every dimension, the
    unnamed kind of that family over that dimension: it is what the alias
    [downcast_kind] names where no kind is declared. *)
Inductive family := of_radius | of_width | of_apples.

Inductive kind :=
| radius | curvature | width | horizontal_area | apples
| unnamed (F : family) (D : Z).

#[export] Instance family_eq_dec : EqDecision family.
Proof. solve_decision. Defined.

#[export] Instance kind_eq_dec : EqDecision kind.
Proof. solve_decision. Defined.

Definition declared : list kind :=
  [radius; curvature; width; horizontal_area; apples].

Definition specific (K : kind) : bool :=
  match K with unnamed _ _ => false | _ => true end.

Definition kind_family (K : kind) : family :=
  match K with
  | radius | curvature => of_radius
  | width | horizontal_area => of_width
  | apples => of_apples
  | unnamed F _ => F
  end.

Definition root (F : family) : kind :=
  match F with
  | of_radius => radius
  | of_width => width
  | of_apples => apples
  end.

Definition kind_base (K : kind) : kind := root (kind_family K).

Definition kind_dim (K : kind) : Z :=
  match K with
  | radius | width => 1
  | curvature => -1
  | horizontal_area => 2
  | apples => 0
  | unnamed _ D => D
  end.

#[export] Instance kinds : Kinds := {|
  Kind := kind;
  base_kind := kind_base;
  kind_dimension := kind_dim;
  downcast_kind K D :=
    Some (default (unnamed (kind_family K) D)
            (List.find (λ K', bool_decide (kind_base K' = kind_base K)
                              && bool_decide (kind_dim K' = D)) declared));
|}.

(** Three representation types: two integral ones and an exact rational
    one that is treated as a floating-point type.  Numbers are kept ideal:
    the integral types do not overflow, the rational one does not round. *)
Inductive rep_type := rep_int | rep_long | rep_rational.

#[export] Instance rep_type_eq_dec : EqDecision rep_type.
Proof. solve_decision. Defined.

Inductive scalar := int_ (z : Z) | long_ (z : Z) | rational_ (x : Q).

Definition scalar_type (s : scalar) : rep_type :=
  match s with
  | int_ _ => rep_int
  | long_ _ => rep_long
  | rational_ _ => rep_rational
  end.

Definition treat_as_floating_point (R : rep_type) : bool :=
  match R with rep_rational => true | _ => false end.

(** A conversion between representation types is safe unless it leaves the
    floating-point class. *)
#[export] Instance representations : Representations := {|
  Rep := rep_type;
  Value := scalar;
  value_type := scalar_type;
  Num := scalar;
  safe_convertible_to_ From To :=
    treat_as_floating_point To || negb (treat_as_floating_point From);
|}.

Definition to_Q (s : scalar) : Q :=
  match s with int_ z | long_ z => inject_Z z | rational_ x => x end.

(** Conversion of a number to a representation type. *)
Definition cast (R : rep_type) (s : scalar) : option scalar :=
  match R, s with
  | rep_int, (int_ z | long_ z) => Some (int_ z)
  | rep_long, (int_ z | long_ z) => Some (long_ z)
  | rep_rational, _ => Some (rational_ (Qred (to_Q s)))
  | _, rational_ _ => None
  end.

(** Arithmetic with the usual promotion of a mixed pair.  Division by zero
    is undefined in the source language; [Z.quot] and [Qdiv] answer [0]
    there, and nothing below divides by zero. *)
Definition arith (fz : Z → Z → Z) (fq : Q → Q → Q) (a b : scalar) : scalar :=
  match a, b with
  | int_ x, int_ y => int_ (fz x y)
  | int_ x, long_ y | long_ x, int_ y | long_ x, long_ y => long_ (fz x y)
  | _, _ => rational_ (Qred (fq (to_Q a) (to_Q b)))
  end.

Definition scalar_add := arith Z.add Qplus.
Definition scalar_sub := arith Z.sub Qminus.
Definition scalar_mul := arith Z.mul Qmult.
Definition scalar_div := arith Z.quot Qdiv.

(** [%] exists on the integral representations only. *)
Definition scalar_mod (a b : scalar) : option scalar :=
  match a, b with
  | int_ x, int_ y => Some (int_ (Z.rem x y))
  | int_ x, long_ y | long_ x, int_ y | long_ x, long_ y =>
      Some (long_ (Z.rem x y))
  | _, _ => None
  end.

Definition scalar_eq (a b : scalar) : bool := Qeq_bool (to_Q a) (to_Q b).

Definition scalar_of_Z (R : rep_type) (z : Z) : scalar :=
  match R with
  | rep_int => int_ z
  | rep_long => long_ z
  | rep_rational => rational_ (inject_Z z)
  end.

Definition quantity_of (D : Z) (s : scalar) : quantity :=
  Quantity D (metre_to D) (scalar_type s) s.

Definition same_unit (a b : quantity) : bool :=
  bool_decide (Q_dimension a = Q_dimension b)
  && bool_decide (Q_unit a = Q_unit b).

(** A quantity of type [T] holding [n] converted to the representation of
    [T]. *)
Definition stored (T : QT) (n : scalar) : option quantity :=
  n' ← cast (QT_rep T) n;
  Some (Quantity (QT_dimension T) (QT_unit T) (QT_rep T) n').

Definition convert (T : QT) (q : quantity) : option quantity :=
  guard (Q_dimension q = QT_dimension T);;
  guard (Q_unit q = QT_unit T);;
  guard (safe_convertible_to_ (Q_rep q) (QT_rep T));;
  stored T (number q).

(** An in-place operator leaves its result in the receiver, in the
    representation of the receiver. *)
Definition update (q : quantity) (n : scalar) : option quantity :=
  stored (type_of q) n.

(** A binary operator answers a quantity in the representation of its
    result. *)
Definition scaled (q : quantity) (n : scalar) : quantity :=
  Quantity (Q_dimension q) (Q_unit q) (scalar_type n) n.

Definition step (f : scalar → scalar → scalar) (q : quantity)
  : option quantity :=
  update q (f (number q) (scalar_of_Z (Q_rep q) 1)).

#[export] Instance quantity_ops : QuantityOps := {|
  quantity_from_value T v :=
    guard (safe_convertible_to_ (value_type v) (QT_rep T));;
    stored T v;
  quantity_from_quantity := convert;
  quantity_convertible From To :=
    bool_decide (QT_dimension From = QT_dimension To)
    && bool_decide (QT_unit From = QT_unit To)
    && safe_convertible_to_ (QT_rep From) (QT_rep To);
  quantity_zero T := stored T (int_ 0);
  quantity_one T := stored T (int_ 1);
  quantity_pre_inc q := step scalar_add q;
  quantity_post_inc q := q' ← step scalar_add q; Some (q, q');
  quantity_pre_dec q := step scalar_sub q;
  quantity_post_dec q := q' ← step scalar_sub q; Some (q, q');
  quantity_mod_assign_value q v :=
    n ← scalar_mod (number q) v; update q n;
  quantity_mod_assign q q2 :=
    guard (same_unit q q2);;
    n ← scalar_mod (number q) (number q2); update q n;
  quantity_mul_value q v := Some (scaled q (scalar_mul (number q) v));
  value_mul_quantity v q := Some (scaled q (scalar_mul v (number q)));
  quantity_div_value q v := Some (scaled q (scalar_div (number q) v));
  value_div_quantity v q :=
    Some (quantity_of (- Q_dimension q) (scalar_div v (number q)));
  quantity_add a b :=
    guard (same_unit a b);;
    Some (scaled a (scalar_add (number a) (number b)));
  quantity_sub a b :=
    guard (same_unit a b);;
    Some (scaled a (scalar_sub (number a) (number b)));
  quantity_mul a b :=
    Some (quantity_of (Q_dimension a + Q_dimension b)
            (scalar_mul (number a) (number b)));
  quantity_div a b :=
    Some (quantity_of (Q_dimension a - Q_dimension b)
            (scalar_div (number a) (number b)));
  quantity_mod a b :=
    guard (same_unit a b);;
    n ← scalar_mod (number a) (number b); Some (scaled a n);
  quantity_eq a b :=
    guard (same_unit a b);;
    Some (scalar_eq (number a) (number b));
|}.

(** Some classes: [width<metre, int>], [width<metre, long>],
    [radius<metre, int>] and [apples<one, int>]; and some objects. *)
Definition width_metre_int : QK := mkQK width metre rep_int.
Definition width_metre_long : QK := mkQK width metre rep_long.
Definition radius_metre_int : QK := mkQK radius metre rep_int.
Definition apples_one_int : QK := mkQK apples unit_one rep_int.

Definition metres (z : Z) : quantity := quantity_of dim_length (int_ z).

Definition a_width (z : Z) : quantity_kind := QuantityKind width (metres z).
Definition a_long_width (z : Z) : quantity_kind :=
  QuantityKind width (quantity_of dim_length (long_ z)).
Definition a_radius (z : Z) : quantity_kind := QuantityKind radius (metres z).
Definition an_area (z : Z) : quantity_kind :=
  QuantityKind horizontal_area (quantity_of dim_area (int_ z)).
Definition pieces (z : Z) : quantity := quantity_of 0 (int_ z).

Definition some_apples (z : Z) : quantity_kind :=
  QuantityKind apples (pieces z).

(** The second interface.  The integral representations answer the limits
    of 32 and 64 bits, the rational one has none; [<=>] answers a
    [comparison]. *)
Definition lowest (R : rep_type) : option scalar :=
  match R with
  | rep_int => Some (int_ (-2147483648))
  | rep_long => Some (long_ (-9223372036854775808))
  | rep_rational => None
  end.

Definition highest (R : rep_type) : option scalar :=
  match R with
  | rep_int => Some (int_ 2147483647)
  | rep_long => Some (long_ 9223372036854775807)
  | rep_rational => None
  end.

#[export] Instance quantity_more_ops : QuantityMoreOps := {|
  Ordering := comparison;
  Dimensionless q := bool_decide (Q_dimension q = 0);
  quantity_min T := n ← lowest (QT_rep T); stored T n;
  quantity_max T := n ← highest (QT_rep T); stored T n;
  quantity_pos q := Some q;
  quantity_neg q := Some (scaled q (scalar_sub (scalar_of_Z (Q_rep q) 0) (number q)));
  quantity_add_assign q q2 :=
    guard (same_unit q q2);; update q (scalar_add (number q) (number q2));
  quantity_sub_assign q q2 :=
    guard (same_unit q q2);; update q (scalar_sub (number q) (number q2));
  quantity_mul_assign_value q v := update q (scalar_mul (number q) v);
  quantity_mul_assign_quantity q p := None;
  quantity_div_assign_value q v := update q (scalar_div (number q) v);
  quantity_div_assign_quantity q p := None;
  quantity_mod_value q v := n ← scalar_mod (number q) v; Some (scaled q n);
  quantity_cmp a b :=
    guard (same_unit a b);; Some (Qcompare (to_Q (number a)) (to_Q (number b)));
|}.

Definition width_metre_rational : QK := mkQK width metre rep_rational.
Definition curvature_int : QK := mkQK curvature per_metre rep_int.

End Metric.

(** ** Properties of the header, for any quantity layer and kind hierarchy *)

Section properties.
Context `{HK : Kinds, HR : Representations, !QuantityOps}.
Implicit Types (q lhs rhs : quantity_kind) (r p : quantity) (s v : Value).
Implicit Types (K : Kind) (T : QK).

(** *** Tagging a quantity *)

Lemma construct_quantity_copy r : construct_quantity (type_of r) r = Some r.
Proof. unfold construct_quantity. by rewrite decide_True. Qed.

(** A formed quantity of the dimension of [K] is wrapped as it is. *)
Lemma make_quantity_kind_fn_wraps K r :
  Q_dimension r = kind_dimension K →
  quantity_formed r = true →
  make_quantity_kind_fn K r = Some (QuantityKind K r).
Proof.
  intros Hdim Hformed.
  unfold make_quantity_kind_fn, quantity_kind_from_quantity, QK_formed.
  unfold quantity_formed in Hformed. cbn.
  rewrite <- Hdim, Hformed, option_guard_True by done. cbn.
  replace (quantity_type _) with (type_of r)
    by (unfold quantity_type, type_of; cbn; by rewrite Hdim).
  by rewrite construct_quantity_copy.
Qed.

(** Whatever [make_quantity_kind_fn<K>] returns has kind [K]. *)
Lemma make_quantity_kind_fn_kind K r qk :
  make_quantity_kind_fn K r = Some qk → kind_type qk = K.
Proof.
  unfold make_quantity_kind_fn, quantity_kind_from_quantity.
  intros; by simplify_option_eq.
Qed.

Lemma well_typed_formed q : well_typed q → quantity_formed (common q) = true.
Proof. intros [Hdim Hunit]. unfold quantity_formed, common. by rewrite Hdim. Qed.

Lemma make_quantity_kind_wraps q r :
  well_typed q →
  Q_dimension r = Q_dimension (common q) →
  quantity_formed r = true →
  make_quantity_kind (qk_type_of q) r = Some (QuantityKind (kind_type q) r).
Proof.
  intros [Hdim _] Hr Hformed. apply make_quantity_kind_fn_wraps; [|done].
  cbn. by rewrite Hr.
Qed.

(** *** Scalars *)

(** C1, as amended.  For a kind-quantity [q] of kind [K] over dimension
    [D] with base kind [B] and a scalar [s] such that the wrapped quantity
    supports [s / q.common()], with a result [r] of dimension [1/D]:
    [s / q] is the kind-quantity that wraps [r] under the kind that
    [downcast_kind(B, 1/D)] names, a kind over [1/D]; the result is a
    kind-quantity whether or not that kind is a declared one, never a plain
    quantity. *)
Theorem value_div_downcasts_base_kind s q r :
  downcast_typed →
  well_typed q →
  value_div_quantity s (common q) = Some r →
  Q_dimension r = dim_invert (Q_dimension (common q)) →
  quantity_formed r = true →
  ∃ K', downcast_kind (base_kind (kind_type q))
                      (dim_invert (dimension (qk_type_of q))) = Some K' ∧
        kind_dimension K' = dim_invert (dimension (qk_type_of q)) ∧
        op_value_div s q = Some (QuantityKind K' r) ∧
        ∀ x, kinded <$> op_value_div s q ≠ Some (unkinded x).
Proof.
  intros Hdown [Hq _] Hdiv Hdim Hformed.
  destruct (Hdown (base_kind (kind_type q))
              (dim_invert (dimension (qk_type_of q)))) as (K' & HK' & HD).
  exists K'. split; [done|]. split; [done|].
  assert (op_value_div s q = Some (QuantityKind K' r)) as Hop.
  { unfold op_value_div. rewrite Hdiv. cbn.
    unfold downcasted_kind, downcasted_kind_fn. cbn.
    unfold common in Hdim. rewrite Hq in Hdim.
    change (dimension (qk_type_of q)) with (kind_dimension (kind_type q)) in *.
    rewrite Hdim, HK'. cbn.
    apply make_quantity_kind_fn_wraps; congruence. }
  split; [done|]. intros x. by rewrite Hop.
Qed.

Lemma make_quantity_kind_kind T r qk :
  make_quantity_kind T r = Some qk → kind_type qk = QK_kind_type T.
Proof. apply make_quantity_kind_fn_kind. Qed.

(** C2.  For a kind-quantity [q] and a scalar [s], each of [q * s],
    [s * q] and [q / s] that the wrapped quantity supports (with a result
    of the dimension of [q]) is the kind-quantity of the very kind of [q]
    that wraps the scaled quantity; and whatever these three expressions
    return has the kind of [q]. *)
Theorem scaling_keeps_kind q s :
  well_typed q →
  (∀ r, quantity_mul_value (common q) s = Some r →
        Q_dimension r = Q_dimension (common q) → quantity_formed r = true →
        op_mul_value q s = Some (QuantityKind (kind_type q) r)) ∧
  (∀ r, value_mul_quantity s (common q) = Some r →
        Q_dimension r = Q_dimension (common q) → quantity_formed r = true →
        op_value_mul s q = Some (QuantityKind (kind_type q) r)) ∧
  (∀ r, quantity_div_value (common q) s = Some r →
        Q_dimension r = Q_dimension (common q) → quantity_formed r = true →
        op_div_value q s = Some (QuantityKind (kind_type q) r)) ∧
  (∀ q', op_mul_value q s = Some q' ∨ op_value_mul s q = Some q' ∨
         op_div_value q s = Some q' →
         kind_type q' = kind_type q).
Proof.
  intros Hq. split_and!.
  1-3: intros r Hr Hdim Hformed;
    unfold op_mul_value, op_value_mul, op_div_value; rewrite Hr; cbn;
    by apply make_quantity_kind_wraps.
  unfold op_mul_value, op_value_mul, op_div_value.
  intros q' [Hq'|[Hq'|Hq']];
    apply bind_Some in Hq' as (r & _ & Hq');
    by apply make_quantity_kind_kind in Hq'.
Qed.

(** *** Compound modulo *)

Lemma op_mod_assign_Rep2_kind_quantity q qk :
  op_mod_assign_Rep2 q (kind_quantity qk) = None.
Proof. unfold op_mod_assign_Rep2. by case_guard. Qed.

Lemma op_mod_assign_Rep2_plain_quantity q p :
  op_mod_assign_Rep2 q (plain_quantity p) = None.
Proof. unfold op_mod_assign_Rep2. by case_guard. Qed.

(** With a kind-quantity on the right, only the non-template member is
    viable. *)
Lemma op_mod_assign_kind_quantity q qk :
  op_mod_assign q (kind_quantity qk) =
    (qk' ← bind_to_quantity_kind (qk_type_of q) (kind_quantity qk);
     op_mod_assign_quantity_kind q qk').
Proof.
  unfold op_mod_assign. rewrite op_mod_assign_Rep2_kind_quantity.
  destruct (same_class _ _);
    by destruct (bind_to_quantity_kind _ _ ≫= _).
Qed.

(** C4, as amended.  For kind-quantities [q] and [other] of one class,
    [q %= other] is accepted exactly when the wrapped quantity supports
    [q.common() %= other.common()]; it then returns the receiver, whose
    kind is kept and whose embedded quantity is replaced by the result. *)
Theorem mod_assign_same_class q other :
  qk_type_of other = qk_type_of q →
  op_mod_assign q (kind_quantity other) =
    (r ← quantity_mod_assign (q_ q) (common other);
     Some (Effect reference_to_this (QuantityKind (kind_type q) r))).
Proof.
  intros Hclass. rewrite op_mod_assign_kind_quantity. cbn.
  by rewrite decide_True.
Qed.

(** *** Construction and extraction *)

Lemma op_eq_same_class a q :
  type_of a = type_of (q_ q) →
  quantity_eq a (common q) = Some true →
  op_eq (QuantityKind (kind_type q) a) q = Some true.
Proof.
  intros Htype Heq. unfold op_eq, op_eq_default, qk_type_of. cbn.
  unfold type_of in Htype. injection Htype as _ Hunit Hrep.
  rewrite Hunit, Hrep, decide_True by done.
  unfold common in Heq. rewrite Heq. apply union_Some_l.
Qed.

Lemma from_own_quantity q :
  well_typed q →
  quantity_kind_from_quantity (qk_type_of q) (common q) = Some q.
Proof.
  intros Hq. destruct q as [K r].
  apply (make_quantity_kind_wraps (QuantityKind K r) r); [done..|].
  by apply (well_typed_formed (QuantityKind K r)).
Qed.

(** C6.  For a kind-quantity [q] of class [Kind], [Kind(q.common())] is
    [q] itself, and it compares equal to [q] (by the comparison of the
    wrapped quantity, which [q.common()] is taken to satisfy with
    itself). *)
Theorem common_round_trip q :
  well_typed q →
  quantity_kind_from_quantity (qk_type_of q) (common q) = Some q ∧
  (quantity_eq (common q) (common q) = Some true →
   (q' ← quantity_kind_from_quantity (qk_type_of q) (common q);
    op_eq q' q) = Some true).
Proof.
  intros Hq. split; [by apply from_own_quantity|].
  intros Heq. rewrite from_own_quantity by done. cbn.
  destruct q as [K r]. by apply (op_eq_same_class r (QuantityKind K r)).
Qed.

(** C9.  Construction from a bare value type-checks only for a kind over
    [dim_one] and a value whose type satisfies [safe_convertible_to_<rep>];
    for another dimension or another value type it is rejected; and under
    these two conditions it wraps the quantity that the value
    constructs. *)
Theorem from_value_gate T v :
  (∀ qk, quantity_kind_from_value T v = Some qk →
         dimension T = dim_one ∧
         safe_convertible_to_ (value_type v) (QK_rep T) = true) ∧
  (dimension T ≠ dim_one ∨
   safe_convertible_to_ (value_type v) (QK_rep T) = false →
   quantity_kind_from_value T v = None) ∧
  (∀ r, QK_formed T = true →
        dimension T = dim_one →
        safe_convertible_to_ (value_type v) (QK_rep T) = true →
        quantity_from_value (quantity_type T) v = Some r →
        quantity_kind_from_value T v = Some (QuantityKind (QK_kind_type T) r)).
Proof.
  unfold quantity_kind_from_value. split_and!.
  - intros qk Hqk. repeat case_guard; simplify_eq/=.
    split; [done|]. by apply Is_true_true.
  - intros [Hdim|Hsafe]; repeat case_guard; try done.
    all: by destruct (safe_convertible_to_ _ _).
  - intros r HT Hdim Hsafe Hr.
    rewrite !option_guard_True by (done || by apply Is_true_true).
    by rewrite Hr.
Qed.

(** *** Equivalent kinds *)

Lemma is_convertible_refl (Q : QT) : is_convertible Q Q = true.
Proof. unfold is_convertible. by rewrite bool_decide_eq_true_2. Qed.

Lemma QuantityKindEquivalentTo_refl T : QuantityKindEquivalentTo T T = true.
Proof.
  unfold QuantityKindEquivalentTo.
  by rewrite bool_decide_eq_true_2, is_convertible_refl.
Qed.

Lemma QuantityKindEquivalentTo_sym T1 T2 :
  QuantityKindEquivalentTo T1 T2 = QuantityKindEquivalentTo T2 T1.
Proof.
  unfold QuantityKindEquivalentTo.
  rewrite (bool_decide_ext (base_kind (QK_kind_type T1) = base_kind (QK_kind_type T2))
             (base_kind (QK_kind_type T2) = base_kind (QK_kind_type T1)))
    by (split; by intros).
  by destruct (bool_decide _), (is_convertible _ _), (is_convertible _ _).
Qed.

Lemma bind_not_equivalent T q :
  QuantityKindEquivalentTo (qk_type_of q) T = false →
  bind_to_quantity_kind T (kind_quantity q) = None.
Proof.
  intros Hne. cbn. case_decide as Hclass.
  - by rewrite Hclass, QuantityKindEquivalentTo_refl in Hne.
  - unfold quantity_kind_from_equivalent. rewrite Hne. by repeat case_guard.
Qed.

Lemma op_eq_not_equivalent lhs rhs :
  QuantityKindEquivalentTo (qk_type_of rhs) (qk_type_of lhs) = false →
  op_eq lhs rhs = None.
Proof.
  intros Hne.
  assert (QuantityKindEquivalentTo (qk_type_of lhs) (qk_type_of rhs) = false)
    as Hne' by (by rewrite QuantityKindEquivalentTo_sym).
  assert (qk_type_of lhs ≠ qk_type_of rhs) as Hclass.
  { intros Heq. by rewrite Heq, QuantityKindEquivalentTo_refl in Hne. }
  unfold op_eq, op_eq_equivalent.
  rewrite decide_False, Hne, (bind_not_equivalent _ _ Hne),
    (bind_not_equivalent _ _ Hne') by done.
  by case_guard.
Qed.

(** C5.  Compound modulo on a kind-quantity [q].  With a bare value it is
    the wrapped quantity's [%=] with that value.  With a kind-quantity of the
    class of [q] it is the wrapped quantity's [%=] with the embedded quantity
    of the operand; with one of another, equivalent class the operand is
    first converted to the class of [q], and it is the wrapped quantity's
    [%=] with the converted embedded quantity; with a kind-quantity that is
    not equivalent it is rejected.  Whenever it is accepted it returns the
    receiver with its kind kept and its embedded quantity replaced by the
    result.  With a plain quantity on the right it is rejected. *)
Theorem mod_assign_operands q :
  (∀ v, op_mod_assign q (bare_value v) =
          (r ← quantity_mod_assign_value (q_ q) v;
           Some (Effect reference_to_this (QuantityKind (kind_type q) r)))) ∧
  (∀ qk, qk_type_of qk = qk_type_of q →
         op_mod_assign q (kind_quantity qk) =
           (r ← quantity_mod_assign (q_ q) (common qk);
            Some (Effect reference_to_this (QuantityKind (kind_type q) r)))) ∧
  (∀ qk, well_typed q →
         qk_type_of qk ≠ qk_type_of q →
         QuantityKindEquivalentTo (qk_type_of qk) (qk_type_of q) = true →
         op_mod_assign q (kind_quantity qk) =
           (c ← construct_quantity (quantity_type (qk_type_of q)) (common qk);
            r ← quantity_mod_assign (q_ q) c;
            Some (Effect reference_to_this (QuantityKind (kind_type q) r)))) ∧
  (∀ qk, QuantityKindEquivalentTo (qk_type_of qk) (qk_type_of q) = false →
         op_mod_assign q (kind_quantity qk) = None) ∧
  (∀ qk qk', bind_to_quantity_kind (qk_type_of q) (kind_quantity qk) = Some qk' →
             op_mod_assign q (kind_quantity qk) =
               (r ← quantity_mod_assign (q_ q) (common qk');
                Some (Effect reference_to_this (QuantityKind (kind_type q) r)))) ∧
  (∀ p, op_mod_assign q (plain_quantity p) = None) ∧
  (∀ (o : operand) e, op_mod_assign q o = Some e →
            result e = reference_to_this ∧
            kind_type (receiver e) = kind_type q).
Proof.
  split_and!.
  - intros v. unfold op_mod_assign, op_mod_assign_Rep2. cbn.
    rewrite option_guard_True by done.
    by destruct (quantity_mod_assign_value _ _ ≫= _).
  - intros qk Hclass. rewrite op_mod_assign_kind_quantity. cbn.
    by rewrite decide_True.
  - intros qk [_ Hformed] Hclass Hequiv.
    rewrite op_mod_assign_kind_quantity. cbn.
    rewrite decide_False by done. unfold quantity_kind_from_equivalent.
    assert (is_convertible (quantity_type (qk_type_of qk))
              (quantity_type (qk_type_of q)) = true) as Hconv.
    { unfold QuantityKindEquivalentTo in Hequiv.
      apply andb_prop in Hequiv as [Hequiv _].
      by apply andb_prop in Hequiv as [_ Hequiv]. }
    unfold QK_formed. cbn. rewrite Hformed, Hequiv, Hconv.
    rewrite !(option_guard_True (Is_true true)) by done.
    by destruct (construct_quantity _ _).
  - intros qk Hne. rewrite op_mod_assign_kind_quantity.
    by rewrite (bind_not_equivalent _ _ Hne).
  - intros qk qk' Hbind. rewrite op_mod_assign_kind_quantity. by rewrite Hbind.
  - intros p. unfold op_mod_assign.
    by rewrite op_mod_assign_Rep2_plain_quantity.
  - intros rhs e. unfold op_mod_assign.
    assert (∀ o, op_mod_assign_Rep2 q o = Some e →
                 result e = reference_to_this ∧
                 kind_type (receiver e) = kind_type q) as HRep2.
    { unfold op_mod_assign_Rep2. intros o ?. by simplify_option_eq. }
    assert (∀ o, bind_to_quantity_kind (qk_type_of q) o
                   ≫= op_mod_assign_quantity_kind q = Some e →
                 result e = reference_to_this ∧
                 kind_type (receiver e) = kind_type q) as Hqk.
    { unfold op_mod_assign_quantity_kind. intros o ?. by simplify_option_eq. }
    destruct (same_class q rhs); intros [?|[_ ?]]%union_Some; eauto.
Qed.

(** C8.  For kind-quantities [lhs] and [rhs] of equivalent kinds, each of
    [lhs + rhs], [lhs - rhs] and [lhs % rhs] that the wrapped quantities
    support (with a result of the dimension of [lhs]) is the kind-quantity
    of the kind of [lhs] that wraps the combination of [lhs.common()] and
    [rhs.common()]; and whatever these three expressions return has the kind
    of [lhs]. *)
Theorem equivalent_operands_keep_left_kind lhs rhs :
  well_typed lhs →
  QuantityKindEquivalentTo (qk_type_of rhs) (qk_type_of lhs) = true →
  (∀ r, quantity_add (common lhs) (common rhs) = Some r →
        Q_dimension r = Q_dimension (common lhs) → quantity_formed r = true →
        op_add lhs rhs = Some (QuantityKind (kind_type lhs) r)) ∧
  (∀ r, quantity_sub (common lhs) (common rhs) = Some r →
        Q_dimension r = Q_dimension (common lhs) → quantity_formed r = true →
        op_sub lhs rhs = Some (QuantityKind (kind_type lhs) r)) ∧
  (∀ r, quantity_mod (common lhs) (common rhs) = Some r →
        Q_dimension r = Q_dimension (common lhs) → quantity_formed r = true →
        op_mod lhs rhs = Some (QuantityKind (kind_type lhs) r)) ∧
  (∀ q, op_add lhs rhs = Some q ∨ op_sub lhs rhs = Some q ∨
        op_mod lhs rhs = Some q →
        kind_type q = kind_type lhs).
Proof.
  intros Hlhs Hequiv. split_and!.
  1-3: intros r Hr Hdim Hformed;
    unfold op_add, op_sub, op_mod;
    rewrite Hequiv, option_guard_True, Hr by done; cbn;
    by apply make_quantity_kind_wraps.
  unfold op_add, op_sub, op_mod. rewrite Hequiv, !option_guard_True by done.
  intros q [Hq|[Hq|Hq]];
    apply bind_Some in Hq as (r & _ & Hq);
    by apply make_quantity_kind_kind in Hq.
Qed.

(** C7, as amended.  For a kind-quantity [q] of class [Kind]:
    - [q + Kind::zero() == q] holds when the wrapped quantity satisfies
      [q.common() + zero() == q.common()], the sum being of the type of
      [q.common()];
    - [q * Kind::one().common()] is the product of [q] with a plain
      quantity: it is the downcast of the base kind of [q] onto the
      dimension of [q.common() * one()], and it compares equal to [q] when
      this product has the type of [q.common()], the hierarchy maps its
      dimension back to the kind of [q], and the wrapped quantity satisfies
      [q.common() * one() == q.common()];
    - when the class of that product is not equivalent to the class of [q],
      the comparison of the product with [q] is rejected. *)
Theorem identity_laws q :
  well_typed q →
  (∀ z a, zero (qk_type_of q) = Some z →
          qk_type_of z = qk_type_of q →
          quantity_add (common q) (common z) = Some a →
          type_of a = type_of (common q) →
          quantity_eq a (common q) = Some true →
          (z ← zero (qk_type_of q); a ← op_add q z; op_eq a q) = Some true) ∧
  (∀ o p, one (qk_type_of q) = Some o →
          quantity_mul (common q) (common o) = Some p →
          op_mul_quantity q (common o) = downcasted_kind (qk_type_of q) p ∧
          (type_of p = type_of (common q) →
           downcast_kind (base_kind (kind_type q)) (Q_dimension p)
             = Some (kind_type q) →
           quantity_eq p (common q) = Some true →
           (o ← one (qk_type_of q); m ← op_mul_quantity q (common o);
            op_eq m q) = Some true)) ∧
  (∀ o m, one (qk_type_of q) = Some o →
          op_mul_quantity q (common o) = Some m →
          QuantityKindEquivalentTo (qk_type_of q) (qk_type_of m) = false →
          (o ← one (qk_type_of q); m ← op_mul_quantity q (common o);
           op_eq m q) = None).
Proof.
  intros Hq.
  assert (∀ a, type_of a = type_of (common q) →
               Q_dimension a = Q_dimension (common q) ∧
               quantity_formed a = true) as Htyped.
  { intros a Ha. unfold type_of in Ha. injection Ha as Hdim Hunit _.
    split; [done|]. unfold quantity_formed. rewrite Hdim, Hunit.
    by apply well_typed_formed. }
  split_and!; [| |intros o m Ho Hm Hne; rewrite Ho; cbn; rewrite Hm; cbn;
                  by apply op_eq_not_equivalent].
  - intros z a Hz Hclass Ha Htype Heq. rewrite Hz. cbn.
    unfold op_add.
    rewrite Hclass, QuantityKindEquivalentTo_refl, option_guard_True, Ha by done.
    cbn. destruct (Htyped a Htype) as [Hdim Hformed].
    rewrite make_quantity_kind_wraps by done. cbn.
    by apply op_eq_same_class.
  - intros o p Ho Hp. unfold op_mul_quantity at 1. rewrite Hp. split; [done|].
    intros Htype Hdown Heq. rewrite Ho. cbn.
    unfold op_mul_quantity. rewrite Hp. cbn.
    unfold downcasted_kind, downcasted_kind_fn. cbn. rewrite Hdown. cbn.
    destruct (Htyped p Htype) as [Hdim Hformed].
    rewrite make_quantity_kind_fn_wraps; [by apply op_eq_same_class| |done].
    rewrite Hdim. apply Hq.
Qed.

(** *** Increment and decrement *)

(** C10.  For a kind-quantity [q] whose wrapped quantity has the postfix
    operators (returning the value before the step and leaving the stepped
    value in place), [q++] and [q--] return a kind-quantity equal to [q] as
    it was and leave in the receiver the stepped quantity under the same
    kind; the prefix forms step the embedded quantity and return the
    receiver, so that what they return designates the stepped object. *)
Theorem increment_decrement q :
  well_typed q →
  (∀ r1, quantity_post_inc (q_ q) = Some (q_ q, r1) →
         op_post_inc q = Some (Effect (prvalue q) (QuantityKind (kind_type q) r1))) ∧
  (∀ r1, quantity_post_dec (q_ q) = Some (q_ q, r1) →
         op_post_dec q = Some (Effect (prvalue q) (QuantityKind (kind_type q) r1))) ∧
  (∀ r1, quantity_pre_inc (q_ q) = Some r1 →
         ∃ e, op_pre_inc q = Some e ∧ result e = reference_to_this ∧
              receiver e = QuantityKind (kind_type q) r1 ∧
              designated e = QuantityKind (kind_type q) r1) ∧
  (∀ r1, quantity_pre_dec (q_ q) = Some r1 →
         ∃ e, op_pre_dec q = Some e ∧ result e = reference_to_this ∧
              receiver e = QuantityKind (kind_type q) r1 ∧
              designated e = QuantityKind (kind_type q) r1).
Proof.
  intros Hq. split_and!; intros r1 Hstep.
  - unfold op_post_inc. rewrite Hstep. cbn.
    change (q_ q) with (common q). by rewrite from_own_quantity.
  - unfold op_post_dec. rewrite Hstep. cbn.
    change (q_ q) with (common q). by rewrite from_own_quantity.
  - unfold op_pre_inc. rewrite Hstep. by eexists.
  - unfold op_pre_dec. rewrite Hstep. by eexists.
Qed.

(** *** Plain quantities *)

(** C3.  For a kind-quantity [q] over dimension [D] and a plain quantity
    [p] over dimension [Dp], each of [q * p], [p * q] and [q / p] that the
    wrapped quantity supports, with a result of dimension [D * Dp]
    (respectively [Dp * D], [D / Dp]), is the kind-quantity that wraps this
    result under the downcast of the kind of [q] onto the new dimension: the
    kind, over that dimension, that [downcast_kind] names from the base kind
    of the kind of [q]. *)
Theorem quantity_operand_downcasts q p :
  downcast_typed →
  well_typed q →
  (∀ r,
      quantity_mul (common q) p = Some r →
      Q_dimension r = dimension_multiply (Q_dimension (common q)) (Q_dimension p) →
      quantity_formed r = true →
      ∃ K', downcast_kind (base_kind (kind_type q))
              (dimension_multiply (dimension (qk_type_of q)) (Q_dimension p)) = Some K' ∧
            kind_dimension K' = dimension_multiply (dimension (qk_type_of q)) (Q_dimension p) ∧
            op_mul_quantity q p = Some (QuantityKind K' r)) ∧
  (∀ r,
      quantity_mul p (common q) = Some r →
      Q_dimension r = dimension_multiply (Q_dimension p) (Q_dimension (common q)) →
      quantity_formed r = true →
      ∃ K', downcast_kind (base_kind (kind_type q))
              (dimension_multiply (Q_dimension p) (dimension (qk_type_of q))) = Some K' ∧
            kind_dimension K' = dimension_multiply (Q_dimension p) (dimension (qk_type_of q)) ∧
            op_quantity_mul p q = Some (QuantityKind K' r)) ∧
  (∀ r,
      quantity_div (common q) p = Some r →
      Q_dimension r = dimension_divide (Q_dimension (common q)) (Q_dimension p) →
      quantity_formed r = true →
      ∃ K', downcast_kind (base_kind (kind_type q))
              (dimension_divide (dimension (qk_type_of q)) (Q_dimension p)) = Some K' ∧
            kind_dimension K' = dimension_divide (dimension (qk_type_of q)) (Q_dimension p) ∧
            op_div_quantity q p = Some (QuantityKind K' r)).
Proof.
  intros Hdown [Hq _]. unfold common.
  change (dimension (qk_type_of q)) with (kind_dimension (kind_type q)).
  rewrite Hq.
  split_and!; intros r Hr Hdim Hformed;
    [ destruct (Hdown (base_kind (kind_type q))
                  (dimension_multiply (kind_dimension (kind_type q)) (Q_dimension p)))
        as (K' & HK' & HD)
    | destruct (Hdown (base_kind (kind_type q))
                  (dimension_multiply (Q_dimension p) (kind_dimension (kind_type q))))
        as (K' & HK' & HD)
    | destruct (Hdown (base_kind (kind_type q))
                  (dimension_divide (kind_dimension (kind_type q)) (Q_dimension p)))
        as (K' & HK' & HD) ];
    exists K'; (split; [done|]); (split; [done|]);
    unfold op_mul_quantity, op_quantity_mul, op_div_quantity, common;
    rewrite Hr; cbn;
    unfold downcasted_kind, downcasted_kind_fn; cbn;
    rewrite Hdim, HK'; cbn;
    apply make_quantity_kind_fn_wraps; congruence.
Qed.

End properties.

(** ** The properties on the concrete system *)

Import Metric.
Local Open Scope Z_scope.

Lemma metric_downcast_typed : downcast_typed.
Proof.
  intros K D. eexists. split; [reflexivity|].
  destruct (List.find _ declared) as [K'|] eqn:HK'; [|reflexivity].
  apply find_some in HK' as [_ HK'].
  apply andb_prop in HK' as [_ HK']. by apply bool_decide_eq_true in HK'.
Qed.

(** *** Scalars *)

(** [10 / radius(5 m)] is a [curvature] of [2] per metre: the hierarchy
    declares [curvature] for the inverted dimension in the family of
    [radius]. *)
Lemma value_div_downcasts_base_kind_witness :
  well_typed (a_radius 5) ∧
  value_div_quantity (int_ 10) (common (a_radius 5))
    = Some (quantity_of (-1) (int_ 2)) ∧
  op_value_div (int_ 10) (a_radius 5)
    = Some (QuantityKind curvature (quantity_of (-1) (int_ 2))).
Proof.
  split; [by split|]. split; [reflexivity|].
  destruct (value_div_downcasts_base_kind (HR := representations)
              (int_ 10) (a_radius 5) (quantity_of (-1) (int_ 2))
              metric_downcast_typed)
    as (K' & HK' & _ & Hop & _); [by split|reflexivity..|].
  rewrite Hop. vm_compute in HK'. by injection HK' as <-.
Defined.

(** The family of [width] declares no kind of dimension [1/length]: the
    alias names the unnamed kind of the family over that dimension.  The
    wrapped quantity supports [10 / (5 m)], and the specification's reading
    of [10 / width(5 m)] is the plain quantity [2] per metre; the header
    returns a kind-quantity, of the unnamed kind. *)
Lemma no_fallback_to_plain_quantity :
  value_div_quantity (int_ 10) (common (a_width 5))
    = Some (quantity_of (-1) (int_ 2)) ∧
  downcast_kind (base_kind width) (dim_invert dim_length)
    = Some (unnamed of_width (-1)) ∧
  specific (unnamed of_width (-1)) = false ∧
  spec_value_div specific (int_ 10) (a_width 5)
    = Some (unkinded (quantity_of (-1) (int_ 2))) ∧
  op_value_div (int_ 10) (a_width 5)
    = Some (QuantityKind (unnamed of_width (-1)) (quantity_of (-1) (int_ 2))) ∧
  kinded <$> op_value_div (int_ 10) (a_width 5)
    ≠ spec_value_div specific (int_ 10) (a_width 5).
Proof. by split_and!. Qed.

Lemma scaling_keeps_kind_witness :
  well_typed (a_radius 5) ∧
  op_mul_value (a_radius 5) (int_ 2) = Some (a_radius 10) ∧
  op_value_mul (int_ 2) (a_radius 5) = Some (a_radius 10) ∧
  op_div_value (a_radius 5) (int_ 2) = Some (a_radius 2).
Proof.
  assert (well_typed (a_radius 5)) as Hq by (by split).
  destruct (scaling_keeps_kind (a_radius 5) (int_ 2) Hq)
    as (Hmul & Hmul' & Hdiv & _).
  split; [exact Hq|]. split_and!.
  - by apply (Hmul (metres 10)).
  - by apply (Hmul' (metres 10)).
  - by apply (Hdiv (metres 2)).
Defined.

(** A rational factor changes the representation, not the kind. *)
Example radius_times_half :
  op_mul_value (a_radius 5) (rational_ (1 # 2))
  = Some (QuantityKind radius
            (Quantity dim_length metre rep_rational (rational_ (5 # 2)))).
Proof. reflexivity. Qed.

(** *** Plain quantities *)

Lemma quantity_operand_downcasts_witness :
  well_typed (a_width 3) ∧ well_typed (an_area 6) ∧
  op_mul_quantity (a_width 3) (metres 2) = Some (an_area 6) ∧
  op_quantity_mul (metres 2) (a_width 3) = Some (an_area 6) ∧
  op_div_quantity (an_area 6) (metres 2) = Some (a_width 3).
Proof.
  assert (well_typed (a_width 3)) as Hw by (by split).
  assert (well_typed (an_area 6)) as Ha by (by split).
  destruct (quantity_operand_downcasts (a_width 3) (metres 2)
              metric_downcast_typed Hw) as (Hmul & Hmul' & _).
  destruct (quantity_operand_downcasts (an_area 6) (metres 2)
              metric_downcast_typed Ha) as (_ & _ & Hdiv).
  split; [exact Hw|]. split; [exact Ha|]. split_and!.
  - destruct (Hmul (quantity_of dim_area (int_ 6))) as (K' & HK' & _ & ->);
      [reflexivity..|].
    vm_compute in HK'. by injection HK' as <-.
  - destruct (Hmul' (quantity_of dim_area (int_ 6))) as (K' & HK' & _ & ->);
      [reflexivity..|].
    vm_compute in HK'. by injection HK' as <-.
  - destruct (Hdiv (metres 3)) as (K' & HK' & _ & ->); [reflexivity..|].
    vm_compute in HK'. by injection HK' as <-.
Defined.

(** Where the family declares no kind for the new dimension, the result is
    of the unnamed kind of the family over that dimension. *)
Example width_over_length :
  op_div_quantity (a_width 6) (metres 2)
  = Some (QuantityKind (unnamed of_width 0) (pieces 3)).
Proof. reflexivity. Qed.

(** *** Compound modulo *)

(** [width(7 m) %= width(4 m)] type-checks and leaves [3 m] in the
    receiver. *)
Lemma mod_assign_kind_quantity_accepted :
  op_mod_assign (a_width 7) (kind_quantity (a_width 4))
    = Some (Effect reference_to_this (a_width 3)) ∧
  op_mod_assign (a_width 7) (kind_quantity (a_width 4)) ≠ None.
Proof. by split. Qed.

Lemma mod_assign_same_class_witness :
  qk_type_of (a_width 4) = qk_type_of (a_width 7) ∧
  op_mod_assign (a_width 7) (kind_quantity (a_width 4))
    = Some (Effect reference_to_this (a_width 3)).
Proof.
  split; [reflexivity|].
  by rewrite (mod_assign_same_class (a_width 7) (a_width 4)).
Defined.

(** The wrapped quantity has no [%=] on the rational representation: there
    the same expression is rejected. *)
Example mod_assign_rational_rejected :
  let w := QuantityKind width
             (Quantity dim_length metre rep_rational (rational_ (7 # 1))) in
  op_mod_assign w (kind_quantity w) = None.
Proof. reflexivity. Qed.

(** A bare value, a kind-quantity of the class, one of an equivalent class
    ([width<metre, long>], converted on the way in), one of a class that is
    not equivalent and a plain quantity. *)
Lemma mod_assign_operands_witness :
  well_typed (a_width 7) ∧
  op_mod_assign (a_width 7) (bare_value (int_ 4))
    = Some (Effect reference_to_this (a_width 3)) ∧
  op_mod_assign (a_width 7) (kind_quantity (a_width 4))
    = Some (Effect reference_to_this (a_width 3)) ∧
  op_mod_assign (a_width 7) (kind_quantity (a_long_width 4))
    = Some (Effect reference_to_this (a_width 3)) ∧
  op_mod_assign (a_width 7) (kind_quantity (a_radius 4)) = None ∧
  op_mod_assign (a_width 7) (plain_quantity (metres 4)) = None.
Proof.
  assert (well_typed (a_width 7)) as Hq by (by split).
  destruct (mod_assign_operands (a_width 7))
    as (Hvalue & Hsame & Hequiv & Hreject & _ & Hplain & _).
  split; [exact Hq|]. split_and!.
  - by rewrite Hvalue.
  - by rewrite (Hsame (a_width 4)).
  - by rewrite (Hequiv (a_long_width 4)).
  - by apply Hreject.
  - apply Hplain.
Defined.

(** A [radius] is not equivalent to a [width]. *)
Example mod_assign_other_family :
  op_mod_assign (a_width 7) (kind_quantity (a_radius 4)) = None.
Proof. reflexivity. Qed.

(** *** Construction and extraction *)

Lemma common_round_trip_witness :
  well_typed (a_width 5) ∧
  quantity_kind_from_quantity width_metre_int (common (a_width 5))
    = Some (a_width 5) ∧
  (q' ← quantity_kind_from_quantity width_metre_int (common (a_width 5));
   op_eq q' (a_width 5)) = Some true.
Proof.
  assert (well_typed (a_width 5)) as Hq by (by split).
  destruct (common_round_trip (a_width 5) Hq) as [Hctor Heq].
  split; [exact Hq|]. split; [exact Hctor|]. by apply Heq.
Defined.

(** [apples<one, int>] from [3], from one half, and [width<metre, int>] from
    [3]. *)
Lemma from_value_gate_witness :
  quantity_kind_from_value apples_one_int (int_ 3) = Some (some_apples 3) ∧
  quantity_kind_from_value apples_one_int (rational_ (1 # 2)) = None ∧
  quantity_kind_from_value width_metre_int (int_ 3) = None.
Proof.
  split_and!.
  - destruct (from_value_gate apples_one_int (int_ 3)) as (_ & _ & Haccept).
    by apply (Haccept (pieces 3)).
  - destruct (from_value_gate apples_one_int (rational_ (1 # 2)))
      as (_ & Hreject & _).
    apply Hreject. by right.
  - destruct (from_value_gate width_metre_int (int_ 3)) as (_ & Hreject & _).
    apply Hreject. by left.
Defined.

(** *** Equivalent kinds *)

Lemma equivalent_operands_keep_left_kind_witness :
  well_typed (a_width 7) ∧
  QuantityKindEquivalentTo (qk_type_of (a_width 4)) (qk_type_of (a_width 7))
    = true ∧
  op_add (a_width 7) (a_width 4) = Some (a_width 11) ∧
  op_sub (a_width 7) (a_width 4) = Some (a_width 3) ∧
  op_mod (a_width 7) (a_width 4) = Some (a_width 3).
Proof.
  assert (well_typed (a_width 7)) as Hq by (by split).
  assert (QuantityKindEquivalentTo (qk_type_of (a_width 4))
            (qk_type_of (a_width 7)) = true) as Hequiv by reflexivity.
  destruct (equivalent_operands_keep_left_kind (a_width 7) (a_width 4) Hq Hequiv)
    as (Hadd & Hsub & Hmod & _).
  split; [exact Hq|]. split; [exact Hequiv|]. split_and!.
  - by apply (Hadd (metres 11)).
  - by apply (Hsub (metres 3)).
  - by apply (Hmod (metres 3)).
Defined.

(** Operands of two equivalent classes: the result is a [width] in the
    representation of the sum. *)
Example width_plus_long_width :
  op_add (a_width 7) (a_long_width 4) = Some (a_long_width 11) ∧
  op_eq (a_width 7) (a_long_width 7) = Some true.
Proof. by split. Qed.

(** Kinds of two families do not combine. *)
Example width_plus_radius :
  op_add (a_width 7) (a_radius 4) = None ∧
  op_eq (a_width 7) (a_radius 7) = None.
Proof. by split. Qed.

(** Both identity laws hold for a dimensionless base kind; on a length the
    second one is rejected. *)
Lemma identity_laws_witness :
  well_typed (some_apples 5) ∧ well_typed (a_width 5) ∧
  (z ← zero apples_one_int; a ← op_add (some_apples 5) z;
   op_eq a (some_apples 5)) = Some true ∧
  (o ← one apples_one_int; m ← op_mul_quantity (some_apples 5) (common o);
   op_eq m (some_apples 5)) = Some true ∧
  (o ← one width_metre_int; m ← op_mul_quantity (a_width 5) (common o);
   op_eq m (a_width 5)) = None.
Proof.
  assert (well_typed (some_apples 5)) as Hq by (by split).
  assert (well_typed (a_width 5)) as Hw by (by split).
  destruct (identity_laws (some_apples 5) Hq) as (Hzero & Hone & _).
  destruct (identity_laws (a_width 5) Hw) as (_ & _ & Hreject).
  split; [exact Hq|]. split; [exact Hw|]. split_and!.
  - by apply (Hzero (some_apples 0) (pieces 5)).
  - destruct (Hone (some_apples 1) (pieces 5)) as [_ Hlaw]; [done..|].
    by apply Hlaw.
  - by apply (Hreject (a_width 1) (an_area 5)).
Defined.

(** [width<metre, int>::one()] is [1 m], a length.  The product of
    [width(5 m)] with it is a [horizontal_area] of [5] square metres, which
    is not comparable with a [width]: the second identity law does not
    type-check. *)
Lemma one_common_is_not_a_scalar :
  one width_metre_int = Some (a_width 1) ∧
  op_mul_quantity (a_width 5) (common (a_width 1)) = Some (an_area 5) ∧
  op_eq (an_area 5) (a_width 5) = None ∧
  (o ← one width_metre_int; m ← op_mul_quantity (a_width 5) (common o);
   op_eq m (a_width 5)) ≠ Some true.
Proof. by split_and!. Qed.

(** In the family of [radius] no kind is declared for an area: the product
    is of the unnamed kind of the family over the area, and the comparison
    with a [radius] is rejected as well. *)
Example radius_times_one_common :
  one radius_metre_int = Some (a_radius 1) ∧
  op_mul_quantity (a_radius 5) (common (a_radius 1))
    = Some (QuantityKind (unnamed of_radius 2) (quantity_of dim_area (int_ 5))) ∧
  op_eq (QuantityKind (unnamed of_radius 2) (quantity_of dim_area (int_ 5)))
        (a_radius 5) = None.
Proof. by split_and!. Qed.

(** The first law on a length. *)
Example width_plus_zero :
  (z ← zero width_metre_int; a ← op_add (a_width 5) z; op_eq a (a_width 5))
  = Some true.
Proof. reflexivity. Qed.

(** *** Increment and decrement *)

Lemma increment_decrement_witness :
  well_typed (a_width 5) ∧
  op_post_inc (a_width 5) = Some (Effect (prvalue (a_width 5)) (a_width 6)) ∧
  op_post_dec (a_width 5) = Some (Effect (prvalue (a_width 5)) (a_width 4)) ∧
  designated <$> op_pre_inc (a_width 5) = Some (a_width 6) ∧
  designated <$> op_pre_dec (a_width 5) = Some (a_width 4).
Proof.
  assert (well_typed (a_width 5)) as Hq by (by split).
  destruct (increment_decrement (a_width 5) Hq) as (Hpost & Hpost' & Hpre & Hpre').
  split; [exact Hq|]. split_and!.
  - by apply (Hpost (metres 6)).
  - by apply (Hpost' (metres 4)).
  - destruct (Hpre (metres 6)) as (e & He & _ & _ & Hd); [reflexivity|].
    rewrite He. change (Some (designated e) = Some (a_width 6)). by rewrite Hd.
  - destruct (Hpre' (metres 4)) as (e & He & _ & _ & Hd); [reflexivity|].
    rewrite He. change (Some (designated e) = Some (a_width 4)). by rewrite Hd.
Defined.

(** ** Further properties of the header *)

Section more_properties.
Context `{HK : Kinds, HR : Representations, !QuantityOps, !QuantityMoreOps}.
Implicit Types (q lhs rhs : quantity_kind) (r p : quantity) (v : Value).
Implicit Types (K : Kind) (T : QK) (o : operand).

(** *** Well-typed results *)

Lemma construct_quantity_typed (Q : QT) r r' :
  constructors_typed →
  construct_quantity Q r = Some r' → type_of r' = Q.
Proof.
  intros [_ Hconv]. unfold construct_quantity.
  case_decide; [by intros [= <-]|]. apply Hconv.
Qed.

Lemma typed_member_well_typed T r :
  QK_formed T = true → type_of r = quantity_type T →
  qk_type_of (QuantityKind (QK_kind_type T) r) = T ∧
  well_typed (QuantityKind (QK_kind_type T) r).
Proof.
  destruct T as [K U R]. unfold QK_formed, quantity_type, type_of. cbn.
  intros Hformed [= Hdim Hunit Hrep].
  unfold qk_type_of, well_typed. cbn. by rewrite Hdim, Hunit, Hrep.
Qed.

Lemma quantity_kind_from_quantity_typed T r qk :
  constructors_typed →
  quantity_kind_from_quantity T r = Some qk →
  qk_type_of qk = T ∧ well_typed qk.
Proof.
  intros Htyped. unfold quantity_kind_from_quantity. intros Hqk.
  case_guard; simplify_eq/=.
  destruct (construct_quantity _ _) as [r'|] eqn:Hr; simplify_eq/=.
  apply typed_member_well_typed; [by apply Is_true_true|].
  by apply construct_quantity_typed in Hr.
Qed.

(** X1.  Under the typing of the quantity constructors, each of the three
    constructors of a class [T] makes a well-typed object of class [T]: its
    member has the type [quantity_type], in a unit of the dimension of the
    kind. *)
Theorem constructors_make_the_class T qk :
  constructors_typed →
  (∀ v, quantity_kind_from_value T v = Some qk →
        qk_type_of qk = T ∧ well_typed qk) ∧
  (∀ r, quantity_kind_from_quantity T r = Some qk →
        qk_type_of qk = T ∧ well_typed qk) ∧
  (∀ q, quantity_kind_from_equivalent T q = Some qk →
        qk_type_of qk = T ∧ well_typed qk).
Proof.
  intros Htyped. split_and!.
  - intros v. unfold quantity_kind_from_value. intros Hqk.
    repeat case_guard; simplify_eq/=.
    destruct (quantity_from_value _ _) as [r|] eqn:Hr; simplify_eq/=.
    apply typed_member_well_typed; [by apply Is_true_true|].
    by apply (proj1 Htyped) in Hr.
  - intros r. by apply quantity_kind_from_quantity_typed.
  - intros q. unfold quantity_kind_from_equivalent. intros Hqk.
    repeat case_guard; simplify_eq/=.
    destruct (construct_quantity _ _) as [r'|] eqn:Hr; simplify_eq/=.
    apply typed_member_well_typed; [by apply Is_true_true|].
    by apply construct_quantity_typed in Hr.
Qed.

Lemma make_quantity_kind_fn_typed K r qk :
  constructors_typed →
  make_quantity_kind_fn K r = Some qk → kind_type qk = K ∧ well_typed qk.
Proof.
  intros Htyped Hqk.
  destruct (quantity_kind_from_quantity_typed _ r qk Htyped Hqk)
    as [Hclass Hwell].
  split; [|done]. exact (f_equal QK_kind_type Hclass).
Qed.

Lemma downcasted_kind_fn_typed K r qk :
  constructors_typed →
  downcasted_kind_fn K r = Some qk →
  downcast_kind K (Q_dimension r) = Some (kind_type qk) ∧ well_typed qk.
Proof.
  intros Htyped. unfold downcasted_kind_fn.
  intros (K' & HK' & Hqk)%bind_Some.
  apply make_quantity_kind_fn_typed in Hqk as [-> Hwell]; done.
Qed.

Lemma downcasted_kind_fn_kind K r qk :
  downcasted_kind_fn K r = Some qk →
  downcast_kind K (Q_dimension r) = Some (kind_type qk).
Proof.
  unfold downcasted_kind_fn. intros (K' & HK' & Hqk)%bind_Some.
  by apply make_quantity_kind_fn_kind in Hqk as ->.
Qed.

(** Every expression that returns by value returns the receiver, a tagging
    under the kind of [q], or a downcast in the family of [q]. *)
Lemma value_returning_shape q v p rhs (e : option quantity_kind) qk :
  e ∈ value_returning q v p rhs → e = Some qk →
  qk = q ∨
  (∃ r, make_quantity_kind_fn (kind_type q) r = Some qk) ∨
  (∃ r, downcasted_kind_fn (base_kind (kind_type q)) r = Some qk).
Proof.
  intros Hin He. unfold value_returning in Hin.
  repeat (apply elem_of_cons in Hin as [->|Hin]);
    [..|by apply elem_of_nil in Hin];
    unfold op_pos, op_neg, op_mul_value, op_value_mul, op_div_value,
      op_value_div, op_mod_value, op_add, op_sub, op_mod, op_mul_quantity,
      op_quantity_mul, op_div_quantity, op_quantity_div,
      op_mod_dimensionless in He;
    try match type of He with
        | (guard _;; _) = _ => apply bind_Some in He as (_ & _ & He)
        end;
    apply bind_Some in He as (r & _ & He); simplify_eq/=; eauto.
Qed.

(** X2.  Under the typing of the quantity constructors, whatever a unary or
    binary operator on a well-typed kind-quantity returns by value is a
    well-typed kind-quantity: its embedded quantity has the dimension of its
    kind. *)
Theorem operators_return_well_typed q v p rhs (e : option quantity_kind) qk :
  constructors_typed →
  well_typed q →
  e ∈ value_returning q v p rhs → e = Some qk →
  well_typed qk.
Proof.
  intros Htyped Hq Hin He.
  destruct (value_returning_shape q v p rhs e qk Hin He)
    as [->|[[r Hr]|[r Hr]]]; [done| |].
  - by apply make_quantity_kind_fn_typed in Hr as [_ ?].
  - by apply downcasted_kind_fn_typed in Hr as [_ ?].
Qed.

(** X3.  In a hierarchy where a downcast stays in the family, whatever a
    unary or binary operator on [q] returns by value has a kind of the
    family of [q]: arithmetic never moves a quantity to another base
    kind. *)
Theorem operators_stay_in_family q v p rhs (e : option quantity_kind) qk :
  hierarchy_closed →
  e ∈ value_returning q v p rhs → e = Some qk →
  base_kind (kind_type qk) = base_kind (kind_type q).
Proof.
  intros [Hbase Hdown] Hin He.
  destruct (value_returning_shape q v p rhs e qk Hin He)
    as [->|[[r Hr]|[r Hr]]]; [done| |].
  - by apply make_quantity_kind_fn_kind in Hr as ->.
  - apply downcasted_kind_fn_kind, Hdown in Hr. by rewrite Hr, Hbase.
Qed.

(** *** In-place operators *)

Lemma with_q__typed q r :
  well_typed q → type_of r = type_of (q_ q) →
  qk_type_of (with_q_ q r) = qk_type_of q ∧ well_typed (with_q_ q r).
Proof.
  intros [Hdim Hunit]. unfold type_of. intros [= Hd Hu Hr].
  unfold qk_type_of, well_typed, with_q_. cbn.
  by rewrite Hd, Hu, Hr.
Qed.

(** X4.  An in-place operator ([++], [--], [+=], [-=], [*=], [/=], [%=],
    with any operand) leaves a well-typed receiver well typed and of the
    same class: same kind, same unit, same representation.  The wrapped
    in-place operators are taken to keep the type of the quantity. *)
Theorem in_place_keeps_the_class q o (e : option effect) x :
  in_place_typed →
  well_typed q →
  e ∈ in_place q o → e = Some x →
  qk_type_of (receiver x) = qk_type_of q ∧ well_typed (receiver x).
Proof.
  intros (Hinc & Hinc' & Hdec & Hdec' & Hadd & Hsub & Hmul & Hdiv & Hmod & Hmod')
    Hq Hin He.
  unfold in_place in Hin.
  repeat (apply elem_of_cons in Hin as [->|Hin]);
    [..|by apply elem_of_nil in Hin].
  - unfold op_pre_inc in He. apply bind_Some in He as (r & Hr & [= <-]).
    apply with_q__typed; eauto.
  - unfold op_post_inc in He.
    apply bind_Some in He as ([old r] & Hr & He).
    apply bind_Some in He as (? & _ & [= <-]).
    apply with_q__typed; eauto.
  - unfold op_pre_dec in He. apply bind_Some in He as (r & Hr & [= <-]).
    apply with_q__typed; eauto.
  - unfold op_post_dec in He.
    apply bind_Some in He as ([old r] & Hr & He).
    apply bind_Some in He as (? & _ & [= <-]).
    apply with_q__typed; eauto.
  - unfold op_add_assign in He. apply bind_Some in He as (qk & _ & He).
    apply bind_Some in He as (r & Hr & [= <-]). apply with_q__typed; eauto.
  - unfold op_sub_assign in He. apply bind_Some in He as (qk & _ & He).
    apply bind_Some in He as (r & Hr & [= <-]). apply with_q__typed; eauto.
  - unfold op_mul_assign in He. apply bind_Some in He as (r & Hr & [= <-]).
    apply with_q__typed; eauto.
  - unfold op_div_assign in He. apply bind_Some in He as (r & Hr & [= <-]).
    apply with_q__typed; eauto.
  - assert (∀ y, op_mod_assign_Rep2 q o = Some y →
                 qk_type_of (receiver y) = qk_type_of q ∧ well_typed (receiver y))
      as HRep2.
    { unfold op_mod_assign_Rep2. intros y Hy.
      apply bind_Some in Hy as (_ & _ & Hy).
      apply bind_Some in Hy as (r & Hr & [= <-]). apply with_q__typed; eauto. }
    assert (∀ y, bind_to_quantity_kind (qk_type_of q) o
                   ≫= op_mod_assign_quantity_kind q = Some y →
                 qk_type_of (receiver y) = qk_type_of q ∧ well_typed (receiver y))
      as Hqk.
    { unfold op_mod_assign_quantity_kind. intros y Hy.
      apply bind_Some in Hy as (qk & _ & Hy).
      apply bind_Some in Hy as (r & Hr & [= <-]). apply with_q__typed; eauto. }
    unfold op_mod_assign in He.
    destruct (same_class q o); apply union_Some in He as [?|[_ ?]]; eauto.
Qed.

(** *** Kinds that are not equivalent *)

(** X5.  Two kind-quantities whose classes are not equivalent never meet in
    an operator: [+], [-], [%], [==], [<=>], [+=], [-=] and [%=] between
    them are all rejected. *)
Theorem not_equivalent_never_mix lhs rhs :
  QuantityKindEquivalentTo (qk_type_of rhs) (qk_type_of lhs) = false →
  op_add lhs rhs = None ∧ op_sub lhs rhs = None ∧ op_mod lhs rhs = None ∧
  op_eq lhs rhs = None ∧ op_cmp lhs rhs = None ∧
  op_add_assign lhs (kind_quantity rhs) = None ∧
  op_sub_assign lhs (kind_quantity rhs) = None ∧
  op_mod_assign lhs (kind_quantity rhs) = None.
Proof.
  intros Hne.
  assert (QuantityKindEquivalentTo (qk_type_of lhs) (qk_type_of rhs) = false)
    as Hne' by (by rewrite QuantityKindEquivalentTo_sym).
  assert (qk_type_of lhs ≠ qk_type_of rhs) as Hclass.
  { intros Heq. by rewrite Heq, QuantityKindEquivalentTo_refl in Hne. }
  pose proof (bind_not_equivalent _ _ Hne) as Hbind.
  pose proof (bind_not_equivalent _ _ Hne') as Hbind'.
  split_and!.
  - unfold op_add. rewrite Hne. by case_guard.
  - unfold op_sub. rewrite Hne. by case_guard.
  - unfold op_mod. rewrite Hne. by case_guard.
  - unfold op_eq, op_eq_equivalent. rewrite decide_False, Hne, Hbind, Hbind' by done.
    by case_guard.
  - unfold op_cmp, op_cmp_equivalent. rewrite decide_False, Hne, Hbind, Hbind' by done.
    by case_guard.
  - unfold op_add_assign. by rewrite Hbind.
  - unfold op_sub_assign. by rewrite Hbind.
  - rewrite op_mod_assign_kind_quantity. by rewrite Hbind.
Qed.

(** X6.  Compound addition and subtraction take a kind-quantity only: with
    a bare value or a plain quantity on the right they are rejected, and
    with a kind-quantity of the class of the receiver they are the wrapped
    quantity's [+=] and [-=] on the embedded quantities, returning the
    receiver under its own kind. *)
Theorem add_assign_operands q :
  (∀ v, op_add_assign q (bare_value v) = None ∧
        op_sub_assign q (bare_value v) = None) ∧
  (∀ p, op_add_assign q (plain_quantity p) = None ∧
        op_sub_assign q (plain_quantity p) = None) ∧
  (∀ rhs, qk_type_of rhs = qk_type_of q →
          op_add_assign q (kind_quantity rhs) =
            (r ← quantity_add_assign (q_ q) (common rhs);
             Some (Effect reference_to_this (QuantityKind (kind_type q) r))) ∧
          op_sub_assign q (kind_quantity rhs) =
            (r ← quantity_sub_assign (q_ q) (common rhs);
             Some (Effect reference_to_this (QuantityKind (kind_type q) r)))).
Proof.
  split_and!; [done..|].
  intros rhs Hclass. unfold op_add_assign, op_sub_assign. cbn.
  by rewrite decide_True.
Qed.

(** *** Unary operators and modulo *)

(** X7.  Unary plus returns the operand itself and exists exactly when the
    wrapped quantity has it; unary minus, when the wrapped quantity has it
    (with a result of the dimension of [q]), is the kind-quantity of the
    kind of [q] that wraps [-q.common()]. *)
Theorem unary_operators q :
  well_typed q →
  (∀ q', op_pos q = Some q' → q' = q) ∧
  (is_Some (op_pos q) ↔ is_Some (quantity_pos (q_ q))) ∧
  (∀ r, quantity_neg (q_ q) = Some r →
        Q_dimension r = Q_dimension (common q) → quantity_formed r = true →
        op_neg q = Some (QuantityKind (kind_type q) r)).
Proof.
  intros Hq. unfold op_pos, op_neg. split_and!.
  - intros q' (? & _ & [= <-])%bind_Some. done.
  - destruct (quantity_pos (q_ q)); cbn; split; intros [? ?]; eauto; done.
  - intros r Hr Hdim Hformed. rewrite Hr. cbn.
    by apply make_quantity_kind_wraps.
Qed.

(** X8.  Modulo by a bare value and by a dimensionless quantity keep the
    kind of the left operand and wrap the wrapped quantity's [%]; modulo by
    a plain quantity that is not dimensionless is rejected. *)
Theorem modulo_keeps_kind q :
  well_typed q →
  (∀ v r, quantity_mod_value (common q) v = Some r →
          Q_dimension r = Q_dimension (common q) → quantity_formed r = true →
          op_mod_value q v = Some (QuantityKind (kind_type q) r)) ∧
  (∀ p r, Dimensionless p = true →
          quantity_mod (common q) p = Some r →
          Q_dimension r = Q_dimension (common q) → quantity_formed r = true →
          op_mod_dimensionless q p = Some (QuantityKind (kind_type q) r)) ∧
  (∀ p, Dimensionless p = false → op_mod_dimensionless q p = None).
Proof.
  intros Hq. unfold op_mod_value, op_mod_dimensionless. split_and!.
  - intros v r Hr Hdim Hformed. rewrite Hr. cbn.
    by apply make_quantity_kind_wraps.
  - intros p r Hp Hr Hdim Hformed. rewrite Hp, option_guard_True, Hr by done.
    cbn. by apply make_quantity_kind_wraps.
  - intros p Hp. rewrite Hp. by case_guard.
Qed.

(** X9.  For a plain quantity [p] over dimension [Dp] and a kind-quantity
    [q] over dimension [D], [p / q], when the wrapped quantity supports it
    with a result of dimension [Dp / D], is the kind-quantity that wraps this
    result under the kind that the hierarchy declares for [Dp / D] in the
    family of the kind of [q]. *)
Theorem quantity_over_kind_downcasts q p r K' :
  well_typed q →
  quantity_div p (common q) = Some r →
  Q_dimension r = dimension_divide (Q_dimension p) (Q_dimension (common q)) →
  quantity_formed r = true →
  downcast_kind (base_kind (kind_type q))
    (dimension_divide (Q_dimension p) (dimension (qk_type_of q))) = Some K' →
  kind_dimension K' = dimension_divide (Q_dimension p) (dimension (qk_type_of q)) →
  op_quantity_div p q = Some (QuantityKind K' r).
Proof.
  intros [Hq _]. unfold common.
  change (dimension (qk_type_of q)) with (kind_dimension (kind_type q)).
  rewrite Hq. intros Hr Hdim Hformed Hdown HK'.
  unfold op_quantity_div, common. rewrite Hr. cbn.
  unfold downcasted_kind, downcasted_kind_fn. cbn. rewrite Hdim, Hdown. cbn.
  apply make_quantity_kind_fn_wraps; congruence.
Qed.

(** *** Factories *)

Lemma factory_wraps T (f : QT → option quantity) :
  QK_formed T = true →
  (∀ x, f (quantity_type T) = Some x → type_of x = quantity_type T →
        (x ← f (quantity_type T); quantity_kind_from_quantity T x)
        = Some (QuantityKind (QK_kind_type T) x)) ∧
  (f (quantity_type T) = None →
   (x ← f (quantity_type T); quantity_kind_from_quantity T x) = None).
Proof.
  intros HT. split; [|by intros ->].
  intros x -> Hx. cbn. unfold quantity_kind_from_quantity.
  rewrite HT, option_guard_True by done. rewrite <- Hx.
  by rewrite construct_quantity_copy.
Qed.

(** X10.  Each static factory [zero()], [one()], [min()], [max()] of a
    well-formed class wraps, under the kind of the class, the object that the
    factory of the wrapped quantity type returns, and is rejected when the
    wrapped quantity type has no such factory. *)
Theorem factories_wrap T :
  QK_formed T = true →
  (∀ x, quantity_zero (quantity_type T) = Some x → type_of x = quantity_type T →
        zero T = Some (QuantityKind (QK_kind_type T) x)) ∧
  (∀ x, quantity_one (quantity_type T) = Some x → type_of x = quantity_type T →
        one T = Some (QuantityKind (QK_kind_type T) x)) ∧
  (∀ x, quantity_min (quantity_type T) = Some x → type_of x = quantity_type T →
        min T = Some (QuantityKind (QK_kind_type T) x)) ∧
  (∀ x, quantity_max (quantity_type T) = Some x → type_of x = quantity_type T →
        max T = Some (QuantityKind (QK_kind_type T) x)) ∧
  (quantity_zero (quantity_type T) = None → zero T = None) ∧
  (quantity_one (quantity_type T) = None → one T = None) ∧
  (quantity_min (quantity_type T) = None → min T = None) ∧
  (quantity_max (quantity_type T) = None → max T = None).
Proof.
  intros HT.
  split_and!;
    first [ apply (factory_wraps T quantity_zero HT)
          | apply (factory_wraps T quantity_one HT)
          | apply (factory_wraps T quantity_min HT)
          | apply (factory_wraps T quantity_max HT) ].
Qed.

(** *** Comparison *)

Lemma union_guarded {A} (x : option A) P `{Decision P} :
  x ∪ (guard P;; x) = x.
Proof. case_guard; by destruct x. Qed.

(** X11.  Between two kind-quantities of one class, [==] and [<=>] are the
    comparisons of the wrapped quantities on the embedded quantities,
    whichever of the two declared operators is selected; between two of
    equivalent classes, an answer of the wrapped comparison is the answer of
    the expression. *)
Theorem comparison_is_of_the_embedded lhs rhs :
  (qk_type_of lhs = qk_type_of rhs →
   op_eq lhs rhs = quantity_eq (common lhs) (common rhs) ∧
   op_cmp lhs rhs = quantity_cmp (common lhs) (common rhs)) ∧
  (QuantityKindEquivalentTo (qk_type_of rhs) (qk_type_of lhs) = true →
   (∀ b, quantity_eq (common lhs) (common rhs) = Some b →
         op_eq lhs rhs = Some b) ∧
   (∀ c, quantity_cmp (common lhs) (common rhs) = Some c →
         op_cmp lhs rhs = Some c)).
Proof.
  assert (qk_type_of lhs = qk_type_of rhs →
          op_eq lhs rhs = quantity_eq (common lhs) (common rhs) ∧
          op_cmp lhs rhs = quantity_cmp (common lhs) (common rhs)) as Hsame.
  { intros Hclass. unfold op_eq, op_cmp. rewrite !decide_True by done.
    unfold op_eq_default, op_eq_equivalent, op_cmp_friend, op_cmp_equivalent.
    split; apply union_guarded. }
  split; [done|]. intros Hequiv.
  destruct (decide (qk_type_of lhs = qk_type_of rhs)) as [Hclass|Hclass].
  - destruct (Hsame Hclass) as [-> ->]. done.
  - unfold op_eq, op_cmp. rewrite !decide_False by done.
    unfold op_eq_equivalent, op_cmp_equivalent.
    rewrite Hequiv, !option_guard_True by done.
    split; intros ? ->; apply union_Some_l.
Qed.

(** *** Composition *)

(** X12.  Multiplying a kind-quantity by a plain quantity and dividing the
    product by the same quantity comes back to the kind of the operand, in a
    hierarchy where a downcast stays in the family and the kind of [q] is the
    one declared for its own dimension: the downcast goes through the base
    kind, whatever kind the product has. *)
Theorem multiply_then_divide_comes_back q p a r :
  hierarchy_closed →
  well_typed q →
  downcast_kind (base_kind (kind_type q)) (kind_dimension (kind_type q))
    = Some (kind_type q) →
  op_mul_quantity q p = Some a →
  quantity_div (common a) p = Some r →
  type_of r = type_of (common q) →
  op_div_quantity a p = Some (QuantityKind (kind_type q) r).
Proof.
  intros [Hbase Hdown] Hq Hown Ha Hr Htype.
  assert (base_kind (kind_type a) = base_kind (kind_type q)) as Hfamily.
  { unfold op_mul_quantity in Ha. apply bind_Some in Ha as (m & _ & Ha).
    apply downcasted_kind_fn_kind, Hdown in Ha. by rewrite Ha, Hbase. }
  unfold type_of in Htype. injection Htype as Hdim Hunit _.
  assert (Q_dimension r = kind_dimension (kind_type q)) as Hdim'
    by (rewrite Hdim; apply Hq).
  unfold op_div_quantity. rewrite Hr. cbn.
  unfold downcasted_kind, downcasted_kind_fn. cbn.
  rewrite Hfamily, Hdim', Hown. cbn.
  apply make_quantity_kind_fn_wraps; [done|].
  unfold quantity_formed. rewrite Hdim, Hunit. by apply well_typed_formed.
Qed.

(** *** Implicit conversion *)

(** X13.  The converting constructor from an equivalent kind-quantity maps
    a well-typed object of the class to itself; and whatever it makes has the
    kind of the class, comes from an operand of the same family, and embeds
    the quantity constructed from the operand's [common()]. *)
Theorem conversion_from_equivalent q :
  (well_typed q → quantity_kind_from_equivalent (qk_type_of q) q = Some q) ∧
  (∀ T q', quantity_kind_from_equivalent T q = Some q' →
           kind_type q' = QK_kind_type T ∧
           base_kind (kind_type q) = base_kind (kind_type q') ∧
           construct_quantity (quantity_type T) (common q) = Some (common q')).
Proof.
  split.
  - intros Hq. pose proof (from_own_quantity q Hq) as Hown.
    unfold quantity_kind_from_quantity in Hown.
    unfold quantity_kind_from_equivalent.
    rewrite QuantityKindEquivalentTo_refl, is_convertible_refl.
    by rewrite (option_guard_True (Is_true true)), (option_guard_True (Is_true true)).
  - intros T q'. unfold quantity_kind_from_equivalent. intros Hq'.
    apply bind_Some in Hq' as (_ & _ & Hq').
    apply bind_Some in Hq' as (Hequiv & _ & Hq').
    apply bind_Some in Hq' as (_ & _ & Hq').
    apply bind_Some in Hq' as (r & Hr & [= <-]). cbn.
    split; [done|]. split; [|done].
    apply Is_true_true in Hequiv. unfold QuantityKindEquivalentTo in Hequiv.
    apply andb_prop in Hequiv as [Hequiv _].
    apply andb_prop in Hequiv as [Hequiv _].
    by apply bool_decide_eq_true in Hequiv.
Qed.

End more_properties.

(** ** The further properties on the concrete system *)

Lemma stored_typed (T : QT) (n : scalar) (q : quantity) :
  stored T n = Some q → type_of q = T.
Proof.
  unfold stored. intros (n' & _ & [= <-])%bind_Some. by destruct T.
Qed.

Lemma update_typed (q : quantity) (n : scalar) (q' : quantity) :
  update q n = Some q' → type_of q' = type_of q.
Proof. apply stored_typed. Qed.

Lemma metric_constructors_typed : constructors_typed.
Proof.
  split.
  - intros T v q (_ & _ & Hq)%bind_Some. by apply stored_typed in Hq.
  - intros T q q'. unfold quantity_from_quantity; cbn. unfold convert.
    intros Hq.
    apply bind_Some in Hq as (_ & _ & Hq).
    apply bind_Some in Hq as (_ & _ & Hq).
    apply bind_Some in Hq as (_ & _ & Hq).
    by apply stored_typed in Hq.
Qed.

Lemma metric_in_place_typed : in_place_typed.
Proof.
  split_and!.
  - intros q q'. apply update_typed.
  - intros q old q' (x & Hx & [= _ <-])%bind_Some. by apply update_typed in Hx.
  - intros q q'. apply update_typed.
  - intros q old q' (x & Hx & [= _ <-])%bind_Some. by apply update_typed in Hx.
  - intros q q2 q' (_ & _ & Hq)%bind_Some. by apply update_typed in Hq.
  - intros q q2 q' (_ & _ & Hq)%bind_Some. by apply update_typed in Hq.
  - intros q [v|p|qk] q'; [apply update_typed|done..].
  - intros q [v|p|qk] q'; [apply update_typed|done..].
  - intros q [v|p|qk] q'; [| |done].
    + intros (n & _ & Hq)%bind_Some. by apply update_typed in Hq.
    + intros (_ & _ & Hq)%bind_Some.
      apply bind_Some in Hq as (n & _ & Hq). by apply update_typed in Hq.
  - intros q q2 q' (_ & _ & Hq)%bind_Some.
    apply bind_Some in Hq as (n & _ & Hq). by apply update_typed in Hq.
Qed.

Lemma metric_hierarchy_closed : hierarchy_closed.
Proof.
  split.
  - by intros [| | | | |[]].
  - intros K D K' HK'.
    assert (K' = default (unnamed (kind_family K) D)
                   (List.find (λ K', bool_decide (kind_base K' = kind_base K)
                                     && bool_decide (kind_dim K' = D)) declared))
      as -> by (by injection HK').
    destruct (List.find _ declared) as [K''|] eqn:Hfind; [|by destruct K].
    apply find_some in Hfind as [_ Hfind].
    apply andb_prop in Hfind as [Hfind _].
    by apply bool_decide_eq_true in Hfind.
Qed.

(** [apples<one, int>] from a bare [3]; [width<metre, long>] from [5 m] held
    in an [int], through both converting constructors. *)
Lemma constructors_make_the_class_witness :
  constructors_typed ∧
  quantity_kind_from_value apples_one_int (int_ 3) = Some (some_apples 3) ∧
  (qk_type_of (some_apples 3) = apples_one_int ∧ well_typed (some_apples 3)) ∧
  quantity_kind_from_quantity width_metre_long (metres 5) = Some (a_long_width 5) ∧
  quantity_kind_from_equivalent width_metre_long (a_width 5) = Some (a_long_width 5) ∧
  (qk_type_of (a_long_width 5) = width_metre_long ∧ well_typed (a_long_width 5)).
Proof.
  destruct (constructors_make_the_class apples_one_int (some_apples 3)
              metric_constructors_typed) as (Hvalue & _ & _).
  destruct (constructors_make_the_class width_metre_long (a_long_width 5)
              metric_constructors_typed) as (_ & Hquantity & _).
  split; [exact metric_constructors_typed|]. split; [reflexivity|].
  split; [by apply (Hvalue (int_ 3))|]. split; [reflexivity|].
  split; [reflexivity|]. by apply (Hquantity (metres 5)).
Defined.

Lemma operators_return_well_typed_witness :
  op_value_div (int_ 10) (a_radius 5)
    = Some (QuantityKind curvature (quantity_of (-1) (int_ 2))) ∧
  well_typed (QuantityKind curvature (quantity_of (-1) (int_ 2))).
Proof.
  split; [reflexivity|].
  apply (operators_return_well_typed (HR := representations)
           (a_radius 5) (int_ 10) (metres 1)
           (a_radius 1)
           (op_value_div (HR := representations) (int_ 10) (a_radius 5))).
  - exact metric_constructors_typed.
  - by split.
  - unfold value_returning. rewrite !elem_of_cons. tauto.
  - reflexivity.
Defined.

Lemma operators_stay_in_family_witness :
  op_mul_quantity (a_width 3) (metres 2) = Some (an_area 6) ∧
  base_kind (kind_type (an_area 6)) = base_kind (kind_type (a_width 3)).
Proof.
  split; [reflexivity|].
  apply (operators_stay_in_family (HR := representations)
           (a_width 3) (int_ 1) (metres 2) (a_width 1)
           (op_mul_quantity (a_width 3) (metres 2))).
  - exact metric_hierarchy_closed.
  - unfold value_returning. rewrite !elem_of_cons. tauto.
  - reflexivity.
Defined.

Lemma in_place_keeps_the_class_witness :
  op_mul_assign (a_width 7) (bare_value (long_ 4))
    = Some (Effect reference_to_this (a_width 28)) ∧
  qk_type_of (a_width 28) = qk_type_of (a_width 7) ∧ well_typed (a_width 28).
Proof.
  split; [reflexivity|].
  apply (in_place_keeps_the_class (HR := representations) (a_width 7)
           (bare_value (HR := representations) (long_ 4))
           (op_mul_assign (a_width 7)
              (bare_value (HR := representations) (long_ 4)))
           (Effect reference_to_this (a_width 28))).
  - exact metric_in_place_typed.
  - by split.
  - unfold in_place. rewrite !elem_of_cons. tauto.
  - reflexivity.
Defined.

(** A [width] and a [radius]. *)
Lemma not_equivalent_never_mix_witness :
  QuantityKindEquivalentTo (qk_type_of (a_radius 4)) (qk_type_of (a_width 7))
    = false ∧
  op_add (a_width 7) (a_radius 4) = None ∧
  op_eq (a_width 7) (a_radius 4) = None ∧
  op_cmp (a_width 7) (a_radius 4) = None ∧
  op_add_assign (a_width 7) (kind_quantity (a_radius 4)) = None.
Proof.
  assert (QuantityKindEquivalentTo (qk_type_of (a_radius 4))
            (qk_type_of (a_width 7)) = false) as Hne by reflexivity.
  destruct (not_equivalent_never_mix (a_width 7) (a_radius 4) Hne)
    as (Hadd & _ & _ & Heq & Hcmp & Hassign & _).
  by split_and!.
Defined.

Lemma add_assign_operands_witness :
  op_add_assign (a_width 7) (bare_value (int_ 4)) = None ∧
  op_sub_assign (a_width 7) (plain_quantity (metres 4)) = None ∧
  op_add_assign (a_width 7) (kind_quantity (a_width 4))
    = Some (Effect reference_to_this (a_width 11)) ∧
  op_sub_assign (a_width 7) (kind_quantity (a_width 4))
    = Some (Effect reference_to_this (a_width 3)).
Proof.
  destruct (add_assign_operands (a_width 7)) as (Hvalue & Hplain & Hkind).
  destruct (Hkind (a_width 4) eq_refl) as [Hadd Hsub].
  split_and!.
  - apply Hvalue.
  - apply Hplain.
  - by rewrite Hadd.
  - by rewrite Hsub.
Defined.

Lemma unary_operators_witness :
  well_typed (a_width 5) ∧
  op_pos (a_width 5) = Some (a_width 5) ∧
  op_neg (a_width 5) = Some (a_width (-5)).
Proof.
  assert (well_typed (a_width 5)) as Hq by (by split).
  destruct (unary_operators (a_width 5) Hq) as (_ & Hpos & Hneg).
  split; [exact Hq|]. split.
  - destruct (proj2 Hpos) as [q' Hq']; [by eexists|].
    rewrite Hq'. f_equal.
    by apply (proj1 (unary_operators (a_width 5) Hq)).
  - by apply (Hneg (metres (-5))).
Defined.

Lemma modulo_keeps_kind_witness :
  well_typed (a_width 7) ∧ well_typed (some_apples 7) ∧
  op_mod_value (a_width 7) (int_ 4) = Some (a_width 3) ∧
  op_mod_dimensionless (some_apples 7) (pieces 4) = Some (some_apples 3) ∧
  op_mod_dimensionless (a_width 7) (metres 4) = None.
Proof.
  assert (well_typed (a_width 7)) as Hw by (by split).
  assert (well_typed (some_apples 7)) as Ha by (by split).
  destruct (modulo_keeps_kind (a_width 7) Hw) as (Hvalue & _ & Hreject).
  destruct (modulo_keeps_kind (some_apples 7) Ha) as (_ & Hdimensionless & _).
  split; [exact Hw|]. split; [exact Ha|]. split_and!.
  - by apply (Hvalue (int_ 4) (metres 3)).
  - by apply (Hdimensionless (pieces 4) (pieces 3)).
  - by apply Hreject.
Defined.

(** [6 / radius(2 m)] is a [curvature] of [3] per metre. *)
Lemma quantity_over_kind_downcasts_witness :
  well_typed (a_radius 2) ∧
  op_quantity_div (pieces 6) (a_radius 2)
    = Some (QuantityKind curvature (quantity_of (-1) (int_ 3))).
Proof.
  split; [by split|].
  by apply (quantity_over_kind_downcasts (HR := representations)
              (a_radius 2) (pieces 6)
              (quantity_of (-1) (int_ 3)) curvature).
Defined.

Lemma factories_wrap_witness :
  QK_formed width_metre_int = true ∧
  zero width_metre_int = Some (a_width 0) ∧
  one width_metre_int = Some (a_width 1) ∧
  min width_metre_int = Some (a_width (-2147483648)) ∧
  max width_metre_int = Some (a_width 2147483647) ∧
  max width_metre_rational = None.
Proof.
  destruct (factories_wrap width_metre_int eq_refl)
    as (Hzero & Hone & Hmin & Hmax & _).
  destruct (factories_wrap width_metre_rational eq_refl)
    as (_ & _ & _ & _ & _ & _ & _ & Hnone).
  split; [reflexivity|]. split_and!.
  - by apply (Hzero (metres 0)).
  - by apply (Hone (metres 1)).
  - by apply (Hmin (metres (-2147483648))).
  - by apply (Hmax (metres 2147483647)).
  - by apply Hnone.
Defined.

Lemma comparison_is_of_the_embedded_witness :
  op_eq (a_width 7) (a_width 7) = Some true ∧
  op_cmp (a_width 7) (a_width 9) = Some Lt ∧
  op_eq (a_width 7) (a_long_width 9) = Some false ∧
  op_cmp (a_long_width 9) (a_width 7) = Some Gt.
Proof.
  destruct (comparison_is_of_the_embedded (a_width 7) (a_width 7)) as [Hsame _].
  destruct (comparison_is_of_the_embedded (a_width 7) (a_width 9)) as [Hsame' _].
  destruct (comparison_is_of_the_embedded (a_width 7) (a_long_width 9))
    as [_ Hmixed].
  destruct (comparison_is_of_the_embedded (a_long_width 9) (a_width 7))
    as [_ Hmixed'].
  split_and!.
  - by rewrite (proj1 (Hsame eq_refl)).
  - by rewrite (proj2 (Hsame' eq_refl)).
  - by apply (proj1 (Hmixed eq_refl)).
  - by apply (proj2 (Hmixed' eq_refl)).
Defined.

(** [width(3 m) * 2 m] is a [horizontal_area]; divided by [2 m] it is a
    [width] again. *)
Lemma multiply_then_divide_comes_back_witness :
  well_typed (a_width 3) ∧
  op_mul_quantity (a_width 3) (metres 2) = Some (an_area 6) ∧
  op_div_quantity (an_area 6) (metres 2) = Some (a_width 3).
Proof.
  split; [by split|]. split; [reflexivity|].
  apply (multiply_then_divide_comes_back (HR := representations)
           (a_width 3) (metres 2) (an_area 6)
           (metres 3)).
  - exact metric_hierarchy_closed.
  - by split.
  - reflexivity.
  - reflexivity.
  - reflexivity.
  - reflexivity.
Defined.

Lemma conversion_from_equivalent_witness :
  well_typed (a_width 5) ∧
  quantity_kind_from_equivalent width_metre_int (a_width 5) = Some (a_width 5) ∧
  quantity_kind_from_equivalent width_metre_long (a_width 5)
    = Some (a_long_width 5) ∧
  base_kind (kind_type (a_width 5)) = base_kind (kind_type (a_long_width 5)).
Proof.
  assert (well_typed (a_width 5)) as Hq by (by split).
  destruct (conversion_from_equivalent (a_width 5)) as [Hown Hany].
  split; [exact Hq|]. split; [by apply Hown|]. split; [reflexivity|].
  by apply (Hany width_metre_long (a_long_width 5)).
Defined.
